(** * Trace normaliser and batch ingestion of [utils.py]

    A shallow embedding of the parts of
    [amazon-bedrock-langfuse-evaluation/utils.py] that carry logic of their
    own: [match_trace_to_test_case], [extract_span_components],
    [process_traces], [process_company] and [process_companies].

    Python values that reach these functions come from JSON documents, so
    they are modelled by the inductive [pyval].  A string is kept as a
    [string], one character per [ascii].  Exceptions are explicit: a
    computation that may raise returns a [result]. *)

From Stdlib Require Import ZArith String Ascii List Lia.
From stdpp Require Import base option list gmap strings pretty.

Open Scope string_scope.
Open Scope list_scope.

(** ** Python values, exceptions and the built-ins the code calls *)

Module Py.

(** Exceptions, all of them subclasses of Python's [Exception]; the
    payload is what [str(e)] shows. *)
Inductive exn : Type :=
| TypeError (msg : string)
| KeyError (msg : string)
| IndexError (msg : string)
| AttributeError (msg : string)
| ServiceError (msg : string).

Definition exn_str (e : exn) : string :=
  match e with
  | TypeError m | KeyError m | IndexError m | AttributeError m
  | ServiceError m => m
  end.

Inductive result (A : Type) : Type :=
| Ok (a : A)
| Raise (e : exn).
Arguments Ok {A} a.
Arguments Raise {A} e.

#[export] Instance result_ret : MRet result := fun _ a => Ok a.
#[export] Instance result_bind : MBind result := fun _ _ f m =>
  match m with
  | Ok a => f a
  | Raise e => Raise e
  end.

Definition returns {A} (m : result A) : Prop := exists a, m = Ok a.

(** JSON-shaped values.  A float is kept as mantissa and exponent; only
    its being zero or not matters to the code. *)
#[warnings="-register-all"] Inductive pyval : Type :=
| PNone
| PBool (b : bool)
| PInt (n : Z)
| PFloat (m e : Z)
| PStr (s : string)
| PList (l : list pyval)
| PDict (d : list (string * pyval)).

(** Truth value of an object, as [if x:] and [x and ...] take it. *)
Definition truthy (v : pyval) : bool :=
  match v with
  | PNone => false
  | PBool b => b
  | PInt n => negb (n =? 0)%Z
  | PFloat m _ => negb (m =? 0)%Z
  | PStr s => negb (String.eqb s "")
  | PList l => match l with [] => false | _ => true end
  | PDict d => match d with [] => false | _ => true end
  end.

Definition is_none (v : pyval) : bool :=
  match v with PNone => true | _ => false end.

(** [isinstance(v, dict) and key in v], then [v[key]] *)
Fixpoint dict_get (key : string) (d : list (string * pyval)) : option pyval :=
  match d with
  | [] => None
  | (k, v) :: d' => if String.eqb k key then Some v else dict_get key d'
  end.

Definition dict_has (key : string) (d : list (string * pyval)) : bool :=
  match dict_get key d with Some _ => true | None => false end.

(** [s.startswith(p)] and [needle in hay] on strings *)
Fixpoint starts_with (p s : string) : bool :=
  match p, s with
  | EmptyString, _ => true
  | String _ _, EmptyString => false
  | String a p', String b s' => Ascii.eqb a b && starts_with p' s'
  end.

Fixpoint contains (needle hay : string) : bool :=
  starts_with needle hay ||
  match hay with
  | EmptyString => false
  | String _ hay' => contains needle hay'
  end.

(** [len(v)] *)
Definition py_len (v : pyval) : result Z :=
  match v with
  | PStr s => Ok (Z.of_nat (String.length s))
  | PList l => Ok (Z.of_nat (length l))
  | PDict d => Ok (Z.of_nat (length d))
  | _ => Raise (TypeError "object has no len()")
  end.

(** [v[0]]: a dict decoded from JSON has string keys only, so the
    integer key is never found. *)
Definition py_first (v : pyval) : result pyval :=
  match v with
  | PList (x :: _) => Ok x
  | PList [] => Raise (IndexError "list index out of range")
  | PStr (String c _) => Ok (PStr (String c EmptyString))
  | PStr EmptyString => Raise (IndexError "string index out of range")
  | PDict _ => Raise (KeyError "0")
  | _ => Raise (TypeError "object is not subscriptable")
  end.

(** [key in v] for a string [key] *)
Definition is_str (key : string) (v : pyval) : bool :=
  match v with
  | PStr s => String.eqb s key
  | _ => false
  end.

Definition py_in (key : string) (v : pyval) : result bool :=
  match v with
  | PDict d => Ok (dict_has key d)
  | PList l => Ok (existsb (is_str key) l)
  | PStr s => Ok (contains key s)
  | _ => Raise (TypeError "argument is not iterable")
  end.

(** [v[key]] for a string [key] *)
Definition py_getitem (key : string) (v : pyval) : result pyval :=
  match v with
  | PDict d =>
      match dict_get key d with
      | Some x => Ok x
      | None => Raise (KeyError key)
      end
  | PList _ => Raise (TypeError "list indices must be integers")
  | PStr _ => Raise (TypeError "string indices must be integers")
  | _ => Raise (TypeError "object is not subscriptable")
  end.

(** [for x in v]: the elements the loop visits *)
Definition py_iter (v : pyval) : result (list pyval) :=
  match v with
  | PList l => Ok l
  | PDict d => Ok (map (fun kv => PStr (fst kv)) d)
  | PStr s =>
      Ok (map (fun c => PStr (String c EmptyString)) (list_ascii_of_string s))
  | _ => Raise (TypeError "object is not iterable")
  end.

(** [s[:n]] *)
Fixpoint str_take (n : nat) (s : string) : string :=
  match n, s with
  | S n', String c s' => String c (str_take n' s')
  | _, _ => EmptyString
  end.

(** ASCII case folding, used to run the model on examples; the theorems
    below hold for every [lower]. *)
Definition ascii_lower_char (c : ascii) : ascii :=
  let n := nat_of_ascii c in
  if (Nat.leb 65 n && Nat.leb n 90)%bool then ascii_of_nat (n + 32) else c.

Fixpoint ascii_lower (s : string) : string :=
  match s with
  | EmptyString => EmptyString
  | String c s' => String (ascii_lower_char c) (ascii_lower s')
  end.

(** A rendering of non-string values, used to run the model on examples;
    the theorems below hold for every rendering. *)
Definition example_repr (v : pyval) : string :=
  match v with
  | PNone => "None"
  | PBool true => "True"
  | PBool false => "False"
  | PInt n => pretty n
  | PStr s => s
  | _ => "<object>"
  end.

End Py.
Import Py.

(** ** The trace normaliser *)

(** An entry of the test-case catalog ([test_cases.json], key [questions]). *)
Record test_case := { query : string; expected_answer : string }.

(** A turn [{"role": ..., "content": ...}]. *)
Record message := { role : string; content : string }.

(** The arguments [process_traces] hands to ragas' [MultiTurnSample]: the
    list of turns as built, and the reference.  What the constructor of
    that library makes of the turns is not part of this file. *)
Record MultiTurnSample := {
  user_input : list message;
  reference : option string
}.

(** An entry [{"trace_id": ..., "type": ..., "index": ...}]. *)
Record mapping_entry := {
  m_trace_id : string;
  m_type : string;
  m_index : Z
}.

(** An object the observation fetcher hands back.  [None] in a field means
    that the object has no such attribute ([hasattr] is false). *)
Record observation := {
  obs_name : option pyval;
  obs_input : option pyval;
  obs_output : option pyval
}.

(** An entry [{"name": ..., "input": ..., "output": ...}]. *)
Record tool_usage := {
  tool_name : string;
  tool_input : pyval;
  tool_output : pyval
}.

(** A trace.  [None] in a field means that the attribute is missing. *)
Record trace := {
  trace_id : string;
  trace_input : option pyval;
  trace_output : option pyval;
  trace_metadata : option pyval;
  trace_observations : option pyval
}.

(** The dictionary [extract_span_components] returns. *)
Record components := {
  user_inputs : list string;
  agent_responses : list string;
  retrieved_contexts : list string;
  tool_usages : list tool_usage;
  available_tools : pyval
}.

Definition user_turn (c : string) : message :=
  {| role := "user"; content := c |}.
Definition assistant_turn (c : string) : message :=
  {| role := "assistant"; content := c |}.

Section Normalizer.

(** [str.lower], and [str] on values that are not strings. *)
Variable lower : string -> string.
Variable repr : pyval -> string.

(** [langfuse.api.observations.get]: the objects the loop over its
    result visits, or the exception the call (or that loop) raises. *)
Variable fetch : pyval -> result (list observation).

(** [str(v)] *)
Definition str (v : pyval) : string :=
  match v with
  | PStr s => s
  | _ => repr v
  end.

(** [match_trace_to_test_case]; falling off the loop returns [None]. *)
Fixpoint match_trace_to_test_case
    (user_input : string) (test_cases : list test_case) : option string :=
  match test_cases with
  | [] => None
  | test_case :: rest =>
      if contains (lower (query test_case)) (lower user_input)
      then Some (expected_answer test_case)
      else match_trace_to_test_case user_input rest
  end.

(** *** [extract_span_components] *)

(** The block on [trace.input]. *)
Definition extract_user_inputs (t : trace) : result (list string) :=
  match trace_input t with
  | None | Some PNone => Ok []
  | Some (PDict d) =>
      match dict_get "args" d with
      | Some args =>
          if truthy args then
            n ← py_len args;
            if (0 <? n)%Z
            then x ← py_first args; Ok [str x]
            else Ok []
          else Ok []
      | None => Ok [str (PDict d)]
      end
  | Some (PStr s) => Ok [s]
  | Some v => Ok [str v]
  end.

(** The block on [trace.output]. *)
Definition extract_agent_responses (t : trace) : list string :=
  match trace_output t with
  | None | Some PNone => []
  | Some (PStr s) => [s]
  | Some v => [str v]
  end.

(** [x.attr if hasattr(x, 'attr') and x.attr else None] *)
Definition attr_or_none (a : option pyval) : pyval :=
  match a with
  | Some v => if truthy v then v else PNone
  | None => PNone
  end.

(** The body of [for obs in observations], on the two lists it appends
    to. *)
Definition process_observation
    (acc : list tool_usage * list string) (obs : observation)
    : list tool_usage * list string :=
  let '(tool_usages, retrieved_contexts) := acc in
  match obs_name obs with
  | Some name =>
      if truthy name then
        let tool_name := str name in
        let tool_input := attr_or_none (obs_input obs) in
        let tool_output := attr_or_none (obs_output obs) in
        let tool_usages :=
          tool_usages ++ [{| tool_name := tool_name;
                             tool_input := tool_input;
                             tool_output := tool_output |}] in
        if contains "retrieve" (lower tool_name) && truthy tool_output
        then (tool_usages, retrieved_contexts ++ [str tool_output])
        else (tool_usages, retrieved_contexts)
      else acc
  | None => acc
  end.

(** [for obsID in trace.observations] inside the [try]: the lists as they
    stand when the loop ends or is left by an exception, and that
    exception. *)
Fixpoint fetch_observations
    (ids : list pyval) (acc : list tool_usage * list string)
    : (list tool_usage * list string) * option exn :=
  match ids with
  | [] => (acc, None)
  | obsID :: rest =>
      match fetch obsID with
      | Ok observations =>
          fetch_observations rest (fold_left process_observation observations acc)
      | Raise e => (acc, Some e)
      end
  end.

(** The [try] block; the handler only prints. *)
Definition extract_observations (t : trace)
    : (list tool_usage * list string) * option exn :=
  match trace_observations t with
  | None => (([], []), Some (AttributeError "observations"))
  | Some v =>
      match py_iter v with
      | Ok ids => fetch_observations ids ([], [])
      | Raise e => (([], []), Some e)
      end
  end.

(** The block on [trace.metadata]; [None] when [available_tools] is left
    unbound. *)
Definition extract_available_tools (t : trace) : result (option pyval) :=
  match trace_metadata t with
  | None => Ok None
  | Some metadata =>
      if truthy metadata then
        has_attributes ← py_in "attributes" metadata;
        if has_attributes : bool then
          attributes ← py_getitem "attributes" metadata;
          has_tools ← py_in "agent.tools" attributes;
          if has_tools : bool then
            tools ← py_getitem "agent.tools" attributes;
            Ok (Some tools)
          else Ok None
        else Ok None
      else Ok None
  end.

Definition extract_span_components (t : trace) : result components :=
  user_inputs ← extract_user_inputs t;
  let agent_responses := extract_agent_responses t in
  let '((tool_usages, retrieved_contexts), _) := extract_observations t in
  available_tools ← extract_available_tools t;
  Ok {| user_inputs := user_inputs;
        agent_responses := agent_responses;
        retrieved_contexts := retrieved_contexts;
        tool_usages := tool_usages;
        available_tools := default (PList []) available_tools |}.

(** *** [process_traces] *)

(** The body of [for i in range(max(len(...), len(...)))]. *)
Definition messages_step
    (user_inputs agent_responses : list string)
    (messages : list message) (i : nat) : list message :=
  let messages :=
    if decide (i < length user_inputs)%nat
    then messages ++ [user_turn (default "" (user_inputs !! i))]
    else messages in
  if decide (i < length agent_responses)%nat
  then messages ++ [assistant_turn (default "" (agent_responses !! i))]
  else messages.

Definition build_messages
    (user_inputs agent_responses : list string) : list message :=
  fold_left (messages_step user_inputs agent_responses)
    (seq 0 (Nat.max (length user_inputs) (length agent_responses))) [].

(** The body of [for trace in traces], on the two lists it appends to. *)
Definition process_trace
    (test_cases : list test_case)
    (acc : list MultiTurnSample * list mapping_entry) (t : trace)
    : result (list MultiTurnSample * list mapping_entry) :=
  let '(multi_turn_samples, trace_sample_mapping) := acc in
  components ← extract_span_components t;
  match user_inputs components with
  | [] => Ok acc
  | first_user_input :: _ =>
      let messages :=
        build_messages (user_inputs components) (agent_responses components) in
      let expected_answer :=
        match_trace_to_test_case first_user_input test_cases in
      let multi_turn_samples :=
        multi_turn_samples ++ [{| user_input := messages;
                                  reference := expected_answer |}] in
      let trace_sample_mapping :=
        trace_sample_mapping ++
          [{| m_trace_id := trace_id t;
              m_type := "multi_turn";
              m_index := (Z.of_nat (length multi_turn_samples) - 1)%Z |}] in
      Ok (multi_turn_samples, trace_sample_mapping)
  end.

Fixpoint process_traces_from
    (test_cases : list test_case) (traces : list trace)
    (acc : list MultiTurnSample * list mapping_entry)
    : result (list MultiTurnSample * list mapping_entry) :=
  match traces with
  | [] => Ok acc
  | t :: rest =>
      acc' ← process_trace test_cases acc t;
      process_traces_from test_cases rest acc'
  end.

(** [process_traces], given the catalog [load_test_cases] read. *)
Definition process_traces
    (test_cases : list test_case) (traces : list trace)
    : result (list MultiTurnSample * list mapping_entry) :=
  process_traces_from test_cases traces ([], []).

End Normalizer.

(** ** Batch ingestion of filings *)

(** A filing record of the filings source, with the fields the code reads. *)
Record filing := {
  periodOfReport : string;
  linkToFilingDetails : string;
  accessionNo : string
}.

(** The [results] dictionary of [process_company]. *)
Record company_result := {
  symbol : string;
  total_filings : Z;
  downloaded : Z;
  uploaded : Z;
  errors : list string
}.

(** The [overall_results] dictionary of [process_companies], without its
    two time stamps. *)
Record overall_results := {
  companies_processed : Z;
  total_filings_found : Z;
  total_downloaded : Z;
  total_uploaded : Z;
  company_results : gmap string company_result
}.

Definition add_error (r : company_result) (msg : string) : company_result :=
  {| symbol := symbol r;
     total_filings := total_filings r;
     downloaded := downloaded r;
     uploaded := uploaded r;
     errors := errors r ++ [msg] |}.

Definition add_downloaded (r : company_result) : company_result :=
  {| symbol := symbol r;
     total_filings := total_filings r;
     downloaded := (downloaded r + 1)%Z;
     uploaded := uploaded r;
     errors := errors r |}.

Definition add_uploaded (r : company_result) : company_result :=
  {| symbol := symbol r;
     total_filings := total_filings r;
     downloaded := downloaded r;
     uploaded := (uploaded r + 1)%Z;
     errors := errors r |}.

(** The entry the [except] branch of [process_companies] stores. *)
Definition failed_company (sym : string) (e : exn) : company_result :=
  {| symbol := sym;
     total_filings := 0;
     downloaded := 0;
     uploaded := 0;
     errors := ["Error processing company " +:+ sym +:+ ": " +:+ exn_str e] |}.

(** The updates of the [try] branch of [process_companies]. *)
Definition record_company
    (sym : string) (results : company_result) (o : overall_results)
    : overall_results :=
  {| companies_processed := (companies_processed o + 1)%Z;
     total_filings_found := (total_filings_found o + total_filings results)%Z;
     total_downloaded := (total_downloaded o + downloaded results)%Z;
     total_uploaded := (total_uploaded o + uploaded results)%Z;
     company_results := <[sym := results]> (company_results o) |}.

Definition record_failure
    (sym : string) (e : exn) (o : overall_results) : overall_results :=
  {| companies_processed := companies_processed o;
     total_filings_found := total_filings_found o;
     total_downloaded := total_downloaded o;
     total_uploaded := total_uploaded o;
     company_results := <[sym := failed_company sym e]> (company_results o) |}.

Definition initial_overall_results : overall_results :=
  {| companies_processed := 0;
     total_filings_found := 0;
     total_downloaded := 0;
     total_uploaded := 0;
     company_results := ∅ |}.

Section Ingestion.

(** The services the code calls are taken as they are: each call reads
    and changes the outside world and either returns or raises. *)
Variable World : Type.
Variable get_filings :
  string -> World -> World * result (list filing).
Variable download_filing :
  string -> filing -> string -> World -> World * result (option string).
Variable upload_to_s3 :
  string -> string -> string -> string -> World -> World * result bool.
Variable save_results :
  overall_results -> World -> World * result unit.

(** The body of [for filing in filings], with its [try]. *)
Definition process_filing
    (bucket_name sym : string)
    (st : World * company_result) (f : filing) : World * company_result :=
  let '(w, results) := st in
  let url := linkToFilingDetails f in
  match download_filing url f sym w with
  | (w, Ok (Some local_file_path)) =>
      if negb (String.eqb local_file_path "") then
        let results := add_downloaded results in
        let year := str_take 4 (periodOfReport f) in
        match upload_to_s3 bucket_name local_file_path sym year w with
        | (w, Ok true) => (w, add_uploaded results)
        | (w, Ok false) =>
            (w, add_error results ("Failed to upload " +:+ local_file_path))
        | (w, Raise e) =>
            (w, add_error results
                  ("Error processing filing " +:+ accessionNo f +:+ ": "
                     +:+ exn_str e))
        end
      else
        (w, add_error results ("Failed to download filing " +:+ accessionNo f))
  | (w, Ok None) =>
      (w, add_error results ("Failed to download filing " +:+ accessionNo f))
  | (w, Raise e) =>
      (w, add_error results
            ("Error processing filing " +:+ accessionNo f +:+ ": "
               +:+ exn_str e))
  end.

Definition process_company
    (bucket_name sym : string) (w : World) : World * result company_result :=
  match get_filings sym w with
  | (w, Raise e) => (w, Raise e)
  | (w, Ok filings) =>
      let results :=
        {| symbol := sym;
           total_filings := Z.of_nat (length filings);
           downloaded := 0;
           uploaded := 0;
           errors := [] |} in
      match filings with
      | [] =>
          (w, Ok (add_error results ("No 10K filings found for " +:+ sym)))
      | _ =>
          let '(w, results) :=
            fold_left (process_filing bucket_name sym) filings (w, results) in
          (w, Ok results)
      end
  end.

(** The body of [for i, symbol in enumerate(symbols, 1)], with its
    [try]. *)
Definition process_companies_step
    (bucket_name : string)
    (st : World * overall_results) (sym : string) : World * overall_results :=
  let '(w, overall) := st in
  match process_company bucket_name sym w with
  | (w, Ok results) => (w, record_company sym results overall)
  | (w, Raise e) => (w, record_failure sym e overall)
  end.

Definition process_companies_loop
    (bucket_name : string) (symbols : list string)
    (st : World * overall_results) : World * overall_results :=
  fold_left (process_companies_step bucket_name) symbols st.

(** [process_companies]: the loop, then the dump of the result to
    [download_results.json]. *)
Definition process_companies
    (bucket_name : string) (symbols : list string) (w : World)
    : World * result overall_results :=
  let '(w, overall) :=
    process_companies_loop bucket_name symbols (w, initial_overall_results) in
  match save_results overall w with
  | (w, Ok _) => (w, Ok overall)
  | (w, Raise e) => (w, Raise e)
  end.

End Ingestion.

(** ** The filings source *)

(** The query [get_filings] sends. *)
Record filings_query := {
  query_string : string;
  query_from : string;
  query_size : string
}.

Definition dquote : string := String (ascii_of_nat 34) EmptyString.

Section FilingsSource.

Variable World : Type.

(** [QueryApi.get_filings]: the list under the key [filings] of the
    response, or the exception the call raises. *)
Variable query_api_get_filings :
  filings_query -> World -> World * result (list filing).

(** [get_filings]; printing the first filing is what raises on an empty
    list. *)
Definition get_filings (sym : string) (years_back : Z) (w : World)
    : World * result (list filing) :=
  let query :=
    {| query_string :=
         "formType:" +:+ dquote +:+ "10-K" +:+ dquote +:+ " AND ticker:" +:+ sym;
       query_from := "0";
       query_size := pretty years_back |} in
  match query_api_get_filings query w with
  | (w, Ok filings) =>
      match filings with
      | [] => (w, Raise (IndexError "list index out of range"))
      | _ :: _ => (w, Ok filings)
      end
  | (w, Raise e) => (w, Raise e)
  end.

End FilingsSource.

(** ** Upload of preloaded documents *)

(** What [iterdir] and [glob] find under the preloaded directory. *)
Record company_entry := {
  company_name : string;
  company_is_dir : bool;
  html_files : list string
}.

Record year_entry := {
  year_name : string;
  year_is_dir : bool;
  company_entries : list company_entry
}.

(** The [results] dictionary of [upload_companies], without its two time
    stamps; an entry [{'uploaded': n}] is kept as [n]. *)
Record upload_results := {
  up_companies_processed : Z;
  up_total_uploaded : Z;
  up_company_results : gmap string Z
}.

Section UploadCompanies.

Variable World : Type.
Variable upload_to_s3 :
  string -> string -> string -> string -> World -> World * result bool.

(** A loop whose body may raise: the exception ends it. *)
Fixpoint fold_raising {S A : Type}
    (body : S -> A -> World -> World * result S)
    (l : list A) (s : S) (w : World) : World * result S :=
  match l with
  | [] => (w, Ok s)
  | x :: rest =>
      match body s x w with
      | (w, Ok s') => fold_raising body rest s' w
      | (w, Raise e) => (w, Raise e)
      end
  end.

(** The body of [for file_path in company_dir.glob("*.html")]. *)
Definition upload_file
    (bucket_name sym year : string)
    (r : upload_results) (file_path : string) (w : World)
    : World * result upload_results :=
  match upload_to_s3 bucket_name file_path sym year w with
  | (w, Ok true) =>
      match up_company_results r !! sym with
      | Some n =>
          (w, Ok {| up_companies_processed := up_companies_processed r;
                    up_total_uploaded := (up_total_uploaded r + 1)%Z;
                    up_company_results :=
                      <[sym := (n + 1)%Z]> (up_company_results r) |})
      | None => (w, Raise (KeyError sym))
      end
  | (w, Ok false) => (w, Ok r)
  | (w, Raise e) => (w, Raise e)
  end.

(** The body of [for company_dir in year_dir.iterdir()]. *)
Definition upload_company
    (bucket_name year : string)
    (r : upload_results) (c : company_entry) (w : World)
    : World * result upload_results :=
  if negb (company_is_dir c) then (w, Ok r)
  else
    let sym := company_name c in
    let r :=
      match up_company_results r !! sym with
      | Some _ => r
      | None =>
          {| up_companies_processed := up_companies_processed r;
             up_total_uploaded := up_total_uploaded r;
             up_company_results := <[sym := 0%Z]> (up_company_results r) |}
      end in
    match fold_raising (upload_file bucket_name sym year) (html_files c) r w with
    | (w, Ok r) =>
        match up_company_results r !! sym with
        | Some n =>
            if (n =? 0)%Z then (w, Ok r)
            else
              (w, Ok {| up_companies_processed := (up_companies_processed r + 1)%Z;
                        up_total_uploaded := up_total_uploaded r;
                        up_company_results := up_company_results r |})
        | None => (w, Raise (KeyError sym))
        end
    | (w, Raise e) => (w, Raise e)
    end.

(** The body of [for year_dir in preloaded_dir.iterdir()]. *)
Definition upload_year
    (bucket_name : string)
    (r : upload_results) (y : year_entry) (w : World)
    : World * result upload_results :=
  if negb (year_is_dir y) then (w, Ok r)
  else fold_raising (upload_company bucket_name (year_name y))
         (company_entries y) r w.

(** [upload_companies], given what the directory walk finds. *)
Definition upload_companies
    (bucket_name : string) (preloaded : list year_entry) (w : World)
    : World * result upload_results :=
  fold_raising (upload_year bucket_name) preloaded
    {| up_companies_processed := 0;
       up_total_uploaded := 0;
       up_company_results := ∅ |} w.

End UploadCompanies.

(** ** Running the test cases *)

(** An entry of the list [run_test_cases_sync] returns. *)
Inductive test_outcome : Type :=
| Answered (q : string) (response : pyval) (expected : string)
| Errored (q : string) (error : string).

Definition outcome_query (o : test_outcome) : string :=
  match o with
  | Answered q _ _ => q
  | Errored q _ => q
  end.

Section RunTestCases.

Variable World : Type.
Variable agent : string -> World -> World * result pyval.
Variable sleep : Z -> World -> World * result unit.

(** The body of [for i, test_case in enumerate(test_cases)], with its
    [try]; [n] is [len(test_cases)]. *)
Definition run_test_case
    (delay : Z) (n : nat) (i : nat) (tc : test_case)
    (st : World * list test_outcome) : World * list test_outcome :=
  let '(w, results) := st in
  match agent (query tc) w with
  | (w, Ok response) =>
      let results :=
        results ++ [Answered (query tc) response (expected_answer tc)] in
      if (Z.of_nat i <? Z.of_nat n - 1)%Z then
        match sleep delay w with
        | (w, Ok _) => (w, results)
        | (w, Raise e) => (w, results ++ [Errored (query tc) (exn_str e)])
        end
      else (w, results)
  | (w, Raise e) => (w, results ++ [Errored (query tc) (exn_str e)])
  end.

Fixpoint run_test_cases_from
    (delay : Z) (n : nat) (i : nat) (test_cases : list test_case)
    (st : World * list test_outcome) : World * list test_outcome :=
  match test_cases with
  | [] => st
  | tc :: rest =>
      run_test_cases_from delay n (S i) rest (run_test_case delay n i tc st)
  end.

Definition run_test_cases_sync
    (test_cases : list test_case) (delay : Z) (w : World)
    : World * list test_outcome :=
  run_test_cases_from delay (length test_cases) 0 test_cases (w, []).

End RunTestCases.

(** ** Provisioning of the vector store *)

(** Exceptions of the provisioning calls: botocore's [ClientError], the
    [ValueError] the code raises itself, and any other exception. *)
Inductive aws_exn : Type :=
| ClientError (code message : string)
| ValueError (msg : string)
| OtherError (e : exn).

Inductive outcome (A : Type) : Type :=
| Returned (a : A)
| Raised (e : aws_exn).
Arguments Returned {A} a.
Arguments Raised {A} e.

(** [v.get(key, default)] *)
Definition py_get (key : string) (default : pyval) (v : pyval) : outcome pyval :=
  match v with
  | PDict d =>
      Returned match dict_get key d with Some x => x | None => default end
  | _ => Raised (OtherError (AttributeError "object has no attribute 'get'"))
  end.

Definition lift_result {A} (r : result A) : outcome A :=
  match r with
  | Ok a => Returned a
  | Raise e => Raised (OtherError e)
  end.

Section VectorStore.

Variable World : Type.
Variable s3vectors_create_vector_bucket : string -> World -> World * outcome unit.
Variable s3vectors_get_vector_bucket : string -> World -> World * outcome pyval.
Variable s3vectors_create_index :
  string -> string -> Z -> World -> World * outcome unit.
Variable s3vectors_list_indexes : string -> World -> World * outcome pyval.

(** [create_vector_bucket]; the handler of [ClientError] logs and raises
    the exception again. *)
Definition create_vector_bucket (vector_bucket_name : string) (w : World)
    : World * outcome pyval :=
  match s3vectors_create_vector_bucket vector_bucket_name w with
  | (w, Raised e) => (w, Raised e)
  | (w, Returned _) =>
      match s3vectors_get_vector_bucket vector_bucket_name w with
      | (w, Raised e) => (w, Raised e)
      | (w, Returned response) =>
          match py_get "vectorBucket" (PDict []) response with
          | Raised e => (w, Raised e)
          | Returned bucket_info =>
              match py_get "vectorBucketArn" PNone bucket_info with
              | Raised e => (w, Raised e)
              | Returned vector_store_arn =>
                  if negb (truthy vector_store_arn)
                  then (w, Raised (ValueError
                                     "Vector bucket ARN not found in response"))
                  else (w, Returned vector_store_arn)
              end
          end
      end
  end.

(** [create_and_get_index_arn] *)
Definition create_and_get_index_arn
    (vector_store_name vector_index_name : string) (vector_dimension : Z)
    (w : World) : World * outcome pyval :=
  match s3vectors_create_index vector_store_name vector_index_name
          vector_dimension w with
  | (w, Raised e) => (w, Raised e)
  | (w, Returned _) =>
      match s3vectors_list_indexes vector_store_name w with
      | (w, Raised e) => (w, Raised e)
      | (w, Returned response) =>
          match py_get "indexes" (PList [PDict []]) response with
          | Raised e => (w, Raised e)
          | Returned indexes =>
              match lift_result (py_first indexes) with
              | Raised e => (w, Raised e)
              | Returned first_index =>
                  match py_get "indexArn" PNone first_index with
                  | Raised e => (w, Raised e)
                  | Returned index_arn =>
                      if negb (truthy index_arn)
                      then (w, Raised (ValueError
                                         "Index ARN not found in response"))
                      else (w, Returned index_arn)
                  end
              end
          end
      end
  end.

End VectorStore.

(** ** Creation of the knowledge base *)

(** What [create_knowledge_base] passes on to the service from its
    arguments and the module-level region and account. *)
Record knowledge_base_request := {
  kb_request_name : string;
  kb_request_role : string;
  kb_request_embedding_model : string;
  kb_request_index : string
}.

Definition is_creating (status : pyval) : bool := is_str "CREATING" status.

Section KnowledgeBase.

Variable World : Type.
Variable region_name account_id : string.
Variable bedrock_create_knowledge_base :
  knowledge_base_request -> World -> World * result pyval.
Variable bedrock_get_knowledge_base : pyval -> World -> World * result pyval.
Variable sleep : Z -> World -> World.

(** [response['knowledgeBase'][key]] *)
Definition knowledge_base_field (key : string) (response : pyval) : result pyval :=
  kb ← py_getitem "knowledgeBase" response; py_getitem key kb.

(** The loop [while status == "CREATING"], run for at most [fuel] polls;
    [None] when the status is still ["CREATING"] after them. *)
Fixpoint poll_knowledge_base
    (fuel : nat) (knowledge_base_id : pyval) (w : World)
    : World * option (result pyval) :=
  match fuel with
  | O => (w, None)
  | S fuel' =>
      match bedrock_get_knowledge_base knowledge_base_id w with
      | (w, Raise e) => (w, Some (Raise e))
      | (w, Ok response) =>
          match knowledge_base_field "status" response with
          | Raise e => (w, Some (Raise e))
          | Ok status =>
              if is_creating status
              then poll_knowledge_base fuel' knowledge_base_id (sleep 30 w)
              else (w, Some (Ok status))
          end
      end
  end.

(** The arguments of [bedrock.create_knowledge_base] that vary. *)
Definition knowledge_base_request_for
    (kb_name roleArn vector_store_name vector_index_name : string)
    : knowledge_base_request :=
  {| kb_request_name := kb_name;
     kb_request_role := roleArn;
     kb_request_embedding_model :=
       "arn:aws:bedrock:" +:+ region_name
         +:+ "::foundation-model/amazon.titan-embed-text-v2:0";
     kb_request_index :=
       "arn:aws:s3vectors:" +:+ region_name +:+ ":" +:+ account_id
         +:+ ":bucket/" +:+ vector_store_name
         +:+ "/index/" +:+ vector_index_name |}.

Definition create_knowledge_base
    (fuel : nat) (kb_name roleArn vector_store_name vector_index_name : string)
    (w : World) : World * option (result pyval) :=
  let w := sleep 60 w in
  let request :=
    knowledge_base_request_for kb_name roleArn vector_store_name
      vector_index_name in
  match bedrock_create_knowledge_base request w with
  | (w, Raise e) => (w, Some (Raise e))
  | (w, Ok create_kb_response) =>
      match knowledge_base_field "knowledgeBaseId" create_kb_response with
      | Raise e => (w, Some (Raise e))
      | Ok knowledge_base_id =>
          match poll_knowledge_base fuel knowledge_base_id w with
          | (w, None) => (w, None)
          | (w, Some (Raise e)) => (w, Some (Raise e))
          | (w, Some (Ok status)) => (w, Some (Ok knowledge_base_id))
          end
      end
  end.

(** The world at the start of the poll number [k] (from [0]) when every
    poll before it went through and was followed by the pause. *)
Fixpoint world_at_poll (k : nat) (knowledge_base_id : pyval) (w : World) : World :=
  match k with
  | O => w
  | S k' =>
      world_at_poll k' knowledge_base_id
        (sleep 30 (fst (bedrock_get_knowledge_base knowledge_base_id w)))
  end.

End KnowledgeBase.

(** ** Notions the statements below are written in *)

(** The lowercased query of [tc] occurs inside the lowercased input. *)
Definition query_matches
    (lower : string -> string) (user_input : string) (tc : test_case) : Prop :=
  exists l r, lower user_input = l +:+ lower (query tc) +:+ r.

(** The turns contributed at index [i]: the user turn if that side has an
    entry there, then the assistant turn if that side has one. *)
Definition turns_at
    (user_inputs agent_responses : list string) (i : nat) : list message :=
  match user_inputs !! i with
  | Some c => [{| role := "user"; content := c |}]
  | None => []
  end ++
  match agent_responses !! i with
  | Some c => [{| role := "assistant"; content := c |}]
  | None => []
  end.

(** The turns read off index by index, from [0] to the larger length. *)
Definition turns_by_index
    (user_inputs agent_responses : list string) : list message :=
  flat_map (turns_at user_inputs agent_responses)
    (seq 0 (Nat.max (length user_inputs) (length agent_responses))).

(** The same sequence by recursion on the two lists. *)
Fixpoint interleave (us rs : list string) : list message :=
  match us, rs with
  | [], [] => []
  | u :: us', [] => {| role := "user"; content := u |} :: interleave us' []
  | [], r :: rs' =>
      {| role := "assistant"; content := r |}
        :: map (fun c => {| role := "assistant"; content := c |}) rs'
  | u :: us', r :: rs' =>
      {| role := "user"; content := u |}
        :: {| role := "assistant"; content := r |} :: interleave us' rs'
  end.


(** The values of [trace.input] the first block reads without raising:
    all but a mapping whose [args] value is truthy and neither a list nor
    a string. *)
Definition input_readable (t : trace) : bool :=
  match trace_input t with
  | Some (PDict d) =>
      match dict_get "args" d with
      | Some (PList _) | Some (PStr _) | None => true
      | Some args => negb (truthy args)
      end
  | _ => true
  end.

(** The values under [attributes] the last block reads without raising: a
    mapping, or a list or string that does not hold ["agent.tools"]. *)
Definition attributes_readable (a : pyval) : bool :=
  match a with
  | PDict _ => true
  | PList l => negb (existsb (is_str "agent.tools") l)
  | PStr s => negb (contains "agent.tools" s)
  | _ => false
  end.

(** The values of [trace.metadata] the last block reads without raising:
    missing or falsy; a mapping without [attributes] or with a readable
    value there; a list or string that does not hold ["attributes"]. *)
Definition metadata_readable (t : trace) : bool :=
  match trace_metadata t with
  | None => true
  | Some m =>
      negb (truthy m) ||
      match m with
      | PDict d =>
          match dict_get "attributes" d with
          | Some a => attributes_readable a
          | None => true
          end
      | PList l => negb (existsb (is_str "attributes") l)
      | PStr s => negb (contains "attributes" s)
      | _ => false
      end
  end.

(** The trace yields a component set with at least one user input. *)
Definition has_user_inputs
    (lower : string -> string) (repr : pyval -> string)
    (fetch : pyval -> result (list observation)) (t : trace) : bool :=
  match extract_span_components lower repr fetch t with
  | Ok c => match user_inputs c with [] => false | _ :: _ => true end
  | Raise _ => false
  end.

(** ** Example data *)

Definition named_observation (name : string) (output : pyval) : observation :=
  {| obs_name := Some (PStr name);
     obs_input := None;
     obs_output := Some output |}.

(** Three observation identifiers on one trace. *)
Definition three_observations_trace : trace :=
  {| trace_id := "trace-1";
     trace_input := Some (PStr "What is the revenue?");
     trace_output := Some (PStr "42");
     trace_metadata := None;
     trace_observations := Some (PList [PStr "o1"; PStr "o2"; PStr "o3"]) |}.

(** A fetcher that fails on the identifier [bad] and finds a named
    observation under each of the other two. *)
Definition fetch_failing_on (bad : string) (obsID : pyval)
    : result (list observation) :=
  match obsID with
  | PStr i =>
      if String.eqb i bad then Raise (ServiceError "observation not found")
      else if String.eqb i "o1" then Ok [named_observation "RetrieveDocs" (PStr "doc A")]
      else if String.eqb i "o2" then Ok [named_observation "Summarize" (PStr "short")]
      else if String.eqb i "o3" then Ok [named_observation "retrieve_more" (PStr "doc B")]
      else Raise (ServiceError "observation not found")
  | _ => Raise (ServiceError "observation not found")
  end.

(** A trace whose metadata holds [None] under [attributes]. *)
Definition null_attributes_trace : trace :=
  {| trace_id := "trace-2";
     trace_input := None;
     trace_output := None;
     trace_metadata := Some (PDict [("attributes", PNone)]);
     trace_observations := Some (PList []) |}.

(** A trace without input. *)
Definition silent_trace : trace :=
  {| trace_id := "trace-0";
     trace_input := None;
     trace_output := Some (PStr "nothing asked");
     trace_metadata := Some (PDict [("attributes",
                                     PDict [("agent.tools", PList [PStr "search"])])]);
     trace_observations := Some (PList []) |}.

(** Services for a run of the ingestion: the world counts the calls made;
    the filings source knows two filings of ["ACME"] and raises on
    ["BAD"]; the second filing cannot be downloaded. *)
Definition example_get_filings (sym : string) (w : nat)
    : nat * result (list filing) :=
  if String.eqb sym "ACME" then
    (S w, Ok [ {| periodOfReport := "2023-12-31";
                  linkToFilingDetails := "https://example.org/a";
                  accessionNo := "0001" |};
               {| periodOfReport := "2022-12-31";
                  linkToFilingDetails := "https://example.org/b";
                  accessionNo := "0002" |} ])
  else if String.eqb sym "BAD" then (S w, Raise (ServiceError "quota exceeded"))
  else (S w, Ok []).

Definition example_download_filing
    (url : string) (f : filing) (sym : string) (w : nat)
    : nat * result (option string) :=
  if String.eqb (accessionNo f) "0002" then (S w, Ok None)
  else (S w, Ok (Some ("temp_10k/" +:+ sym +:+ "_" +:+ periodOfReport f))).

Definition example_upload_to_s3
    (bucket_name local_file_path sym year : string) (w : nat)
    : nat * result bool :=
  (S w, Ok true).

Definition example_save_results (o : overall_results) (w : nat)
    : nat * result unit :=
  (S w, Ok tt).

(** ** Further notions *)

(** A mapping entry with its index moved up by [n]. *)
Definition shift_index (n : nat) (m : mapping_entry) : mapping_entry :=
  {| m_trace_id := m_trace_id m;
     m_type := m_type m;
     m_index := (m_index m + Z.of_nat n)%Z |}.

(** The observation carries a truthy name. *)
Definition is_named (obs : observation) : bool :=
  match obs_name obs with
  | Some name => truthy name
  | None => false
  end.

(** The recorded tool usage is one whose output counts as a retrieved
    context. *)
Definition is_retrieval (lower : string -> string) (u : tool_usage) : bool :=
  contains "retrieve" (lower (tool_name u)) && truthy (tool_output u).

(** The record [process_observation] appends for a named observation. *)
Definition usage_of (repr : pyval -> string) (obs : observation) : tool_usage :=
  {| tool_name := str repr (default PNone (obs_name obs));
     tool_input := attr_or_none (obs_input obs);
     tool_output := attr_or_none (obs_output obs) |}.

(** Two catalogs that agree entry by entry up to the case of the queries. *)
Definition same_up_to_case
    (lower : string -> string) (a b : test_case) : Prop :=
  lower (query a) = lower (query b) /\ expected_answer a = expected_answer b.

(** The sum of one counter over the entries of [company_results]. *)
Definition sum_over
    (f : company_result -> Z) (m : gmap string company_result) : Z :=
  map_fold (fun _ r acc => (acc + f r)%Z) 0%Z m.

(** The bounds every per-company entry keeps. *)
Definition entry_ok (key : string) (r : company_result) : Prop :=
  symbol r = key /\
  (0 <= uploaded r <= downloaded r)%Z /\
  (downloaded r <= total_filings r)%Z.

(** A fetcher that finds the three example observations. *)
Definition fetch_all : pyval -> result (list observation) :=
  fetch_failing_on "none".

(** The message starts with the letter [F] or [E], as every message the
    loop over the filings writes does. *)
Definition filing_error (msg : string) : Prop :=
  exists rest, msg = String "F" rest \/ msg = String "E" rest.

(** The sum of the per-company upload counts. *)
Definition sum_values (m : gmap string Z) : Z :=
  map_fold (fun _ n acc => (acc + n)%Z) 0%Z m.

(** The names of the company directories the walk enters, one per visit. *)
Definition visited_companies (preloaded : list year_entry) : list string :=
  flat_map (fun y =>
              if year_is_dir y
              then map company_name (List.filter company_is_dir (company_entries y))
              else [])
    preloaded.

(** A service that knows no filings at all. *)
Definition example_empty_query_api (q : filings_query) (w : nat)
    : nat * result (list filing) :=
  (S w, Ok []).

(** A preloaded directory: two years, the company ["ACME"] in both, and a
    stray file. *)
Definition example_preloaded : list year_entry :=
  [ {| year_name := "2022"; year_is_dir := true;
       company_entries :=
         [ {| company_name := "ACME"; company_is_dir := true;
              html_files := ["2022/ACME/a.html"] |};
           {| company_name := "EMPTY"; company_is_dir := true;
              html_files := [] |} ] |};
    {| year_name := "README.md"; year_is_dir := false; company_entries := [] |};
    {| year_name := "2023"; year_is_dir := true;
       company_entries :=
         [ {| company_name := "ACME"; company_is_dir := true;
              html_files := ["2023/ACME/a.html"; "2023/ACME/b.html"] |};
           {| company_name := "notes.txt"; company_is_dir := false;
              html_files := [] |} ] |} ].

(** An agent that fails on the query ["boom"], and a pause that always
    goes through. *)
Definition example_agent (q : string) (w : nat) : nat * result pyval :=
  if String.eqb q "boom" then (S w, Raise (ServiceError "agent failed"))
  else (S w, Ok (PStr ("answer to " +:+ q))).

Definition example_sleep (delay : Z) (w : nat) : nat * result unit :=
  (S w, Ok tt).

(** What the counters keep at every point of the walk. *)
Definition upload_invariant (r : upload_results) : Prop :=
  up_total_uploaded r = sum_values (up_company_results r) /\
  map_Forall (fun _ n => (0 <= n)%Z) (up_company_results r) /\
  (0 <= up_companies_processed r)%Z.

(** How far a stretch of the walk that enters the directories [names] may
    move the results. *)
Definition upload_progress
    (names : list string) (r r' : upload_results) : Prop :=
  dom (up_company_results r')
    = dom (up_company_results r) ∪ list_to_set names /\
  (up_companies_processed r <= up_companies_processed r'
     <= up_companies_processed r + Z.of_nat (length names))%Z.

(** A vector store that answers every call; the bucket already holds an
    older index. *)
Definition example_create_vector_bucket (name : string) (w : nat)
    : nat * outcome unit :=
  (S w, Returned tt).

Definition example_get_vector_bucket (name : string) (w : nat)
    : nat * outcome pyval :=
  (S w, Returned (PDict [("vectorBucket",
                          PDict [("vectorBucketName", PStr name);
                                 ("vectorBucketArn",
                                  PStr ("arn:aws:s3vectors:::bucket/" +:+ name))])])).

Definition example_create_index (store index : string) (dimension : Z) (w : nat)
    : nat * outcome unit :=
  (S w, Returned tt).

Definition example_list_indexes (store : string) (w : nat) : nat * outcome pyval :=
  (S w, Returned (PDict [("indexes",
                          PList [PDict [("indexName", PStr "older");
                                        ("indexArn", PStr "arn:older")];
                                 PDict [("indexName", PStr "new");
                                        ("indexArn", PStr "arn:new")]])])).

(** A knowledge-base service seen through a clock in seconds: it reports
    ["CREATING"] until second 100 and ["FAILED"] from then on. *)
Definition example_bedrock_create (request : knowledge_base_request) (w : nat)
    : nat * result pyval :=
  (w, Ok (PDict [("knowledgeBase",
                  PDict [("knowledgeBaseId", PStr "KB1");
                         ("status", PStr "CREATING")])])).

Definition example_bedrock_get (knowledge_base_id : pyval) (w : nat)
    : nat * result pyval :=
  (w, Ok (PDict [("knowledgeBase",
                  PDict [("status",
                          PStr (if Nat.ltb w 100 then "CREATING" else "FAILED"))])])).

Definition example_clock_sleep (seconds : Z) (w : nat) : nat :=
  (w + Z.to_nat seconds)%nat.

(** ** Facts about the string built-ins *)

Section StringFacts.

Lemma starts_with_app (p r : string) : starts_with p (p +:+ r) = true.
Proof.
  induction p as [|a p IH]; simpl; [reflexivity|].
  rewrite Ascii.eqb_refl. exact IH.
Qed.

Lemma starts_with_inv (p s : string) :
  starts_with p s = true -> exists r, s = p +:+ r.
Proof.
  revert s. induction p as [|a p IH]; intros s H.
  - exists s. reflexivity.
  - destruct s as [|b s]; simpl in H; [discriminate|].
    apply andb_prop in H as [Hab Hps].
    apply Ascii.eqb_eq in Hab. subst b.
    destruct (IH _ Hps) as [r ->]. exists r. reflexivity.
Qed.

Lemma starts_with_contains (p s : string) :
  starts_with p s = true -> contains p s = true.
Proof. intros H. destruct s; simpl; rewrite H; reflexivity. Qed.

Lemma contains_spec (needle hay : string) :
  contains needle hay = true <->
  exists l r, hay = l +:+ needle +:+ r.
Proof.
  split.
  - induction hay as [|c hay IH]; simpl; intros H.
    + rewrite orb_false_r in H.
      apply starts_with_inv in H as [r Hr]. exists EmptyString, r. exact Hr.
    + apply orb_prop in H as [H|H].
      * apply starts_with_inv in H as [r Hr]. exists EmptyString, r. exact Hr.
      * destruct (IH H) as (l & r & ->). exists (String c l), r. reflexivity.
  - intros (l & r & ->). induction l as [|c l IH].
    + apply starts_with_contains. exact (starts_with_app needle r).
    + simpl. rewrite IH. apply orb_true_r.
Qed.

Lemma contains_empty (hay : string) : contains "" hay = true.
Proof. destruct hay; reflexivity. Qed.

End StringFacts.


(** ** The catalog matcher *)

Section MatcherProofs.

Variable lower : string -> string.

Lemma query_matches_iff user_input tc :
  contains (lower (query tc)) (lower user_input) = true <->
  query_matches lower user_input tc.
Proof. apply contains_spec. Qed.

Lemma match_none user_input test_cases :
  match_trace_to_test_case lower user_input test_cases = None <->
  Forall (fun tc => ~ query_matches lower user_input tc) test_cases.
Proof.
  induction test_cases as [|tc rest IH]; simpl.
  - split; auto.
  - destruct (contains _ _) eqn:E.
    + split; [discriminate|]. intros H. inversion H as [|?? Hn _]; subst.
      exfalso. apply Hn, query_matches_iff, E.
    + rewrite IH. split.
      * intros H. constructor; [|exact H].
        intros Hm. apply query_matches_iff in Hm. congruence.
      * intros H. inversion H; assumption.
Qed.

Lemma match_some user_input test_cases a :
  match_trace_to_test_case lower user_input test_cases = Some a <->
  exists before tc after,
    test_cases = before ++ tc :: after /\
    a = expected_answer tc /\
    query_matches lower user_input tc /\
    Forall (fun tc' => ~ query_matches lower user_input tc') before.
Proof.
  induction test_cases as [|tc rest IH]; simpl.
  - split; [discriminate|]. intros (before & tc & after & H & _).
    destruct before; discriminate.
  - destruct (contains _ _) eqn:E.
    + split.
      * intros [= <-]. exists [], tc, rest.
        repeat split; [apply query_matches_iff, E | constructor].
      * intros (before & tc' & after & Hsplit & -> & Hm & Hbefore).
        destruct before as [|b before]; simpl in Hsplit.
        -- injection Hsplit as -> _. reflexivity.
        -- injection Hsplit as <- _. inversion Hbefore as [|?? Hn _]; subst.
           exfalso. apply Hn, query_matches_iff, E.
    + rewrite IH. split.
      * intros (before & tc' & after & -> & -> & Hm & Hbefore).
        exists (tc :: before), tc', after. repeat split; auto.
        constructor; [|exact Hbefore].
        intros Hq. apply query_matches_iff in Hq. congruence.
      * intros (before & tc' & after & Hsplit & -> & Hm & Hbefore).
        destruct before as [|b before]; simpl in Hsplit.
        -- injection Hsplit as -> _. apply query_matches_iff in Hm. congruence.
        -- injection Hsplit as <- ->. inversion Hbefore; subst.
           exists before, tc', after. repeat split; auto.
Qed.

(** C3: [match_trace_to_test_case] returns the expected answer of the
    first catalog entry, in catalog order, whose lowercased query is a
    substring of the lowercased input (so of two matching entries the
    earlier one wins), and returns [None], without raising, exactly when
    no entry matches. *)
Theorem match_trace_to_test_case_first_match user_input test_cases :
  (forall a,
      match_trace_to_test_case lower user_input test_cases = Some a <->
      exists before tc after,
        test_cases = before ++ tc :: after /\
        a = expected_answer tc /\
        query_matches lower user_input tc /\
        Forall (fun tc' => ~ query_matches lower user_input tc') before) /\
  (match_trace_to_test_case lower user_input test_cases = None <->
   Forall (fun tc => ~ query_matches lower user_input tc) test_cases).
Proof. split; [intros a; apply match_some | apply match_none]. Qed.

(** C9: when [str.lower] maps the empty string to itself (as Python's
    does), a catalog with an entry whose query is empty never yields
    [None]: the answer is that of the first matching entry, which comes
    no later than the first entry with an empty query. *)
Theorem match_trace_to_test_case_empty_query user_input test_cases :
  lower "" = "" ->
  (exists tc, In tc test_cases /\ query tc = "") ->
  exists before tc after,
    test_cases = before ++ tc :: after /\
    match_trace_to_test_case lower user_input test_cases
      = Some (expected_answer tc) /\
    query_matches lower user_input tc /\
    Forall (fun tc' => ~ query_matches lower user_input tc' /\ query tc' <> "")
      before.
Proof.
  intros Hlow (tc0 & Hin & Hq).
  assert (Hempty : forall tc, query tc = "" -> query_matches lower user_input tc).
  { intros tc E. exists "", (lower user_input). rewrite E, Hlow. reflexivity. }
  destruct (match_trace_to_test_case lower user_input test_cases) as [a|] eqn:E.
  - apply match_some in E as (before & tc & after & Hsplit & -> & Hm & Hbefore).
    exists before, tc, after. repeat split; auto.
    eapply Forall_impl; [exact Hbefore|]. simpl. intros tc' Hn. split; auto.
  - apply match_none in E. rewrite Forall_forall in E.
    exfalso. apply (E tc0); [apply list_elem_of_In, Hin | apply Hempty, Hq].
Qed.

End MatcherProofs.

(** C9 at an instance: ASCII lowering, a catalog whose second entry has an
    empty query. *)
Lemma match_trace_to_test_case_empty_query_witness :
  exists before tc after,
    [ {| query := "revenue"; expected_answer := "42" |};
      {| query := ""; expected_answer := "any" |} ] = before ++ tc :: after /\
    match_trace_to_test_case ascii_lower "unrelated"
      [ {| query := "revenue"; expected_answer := "42" |};
        {| query := ""; expected_answer := "any" |} ]
      = Some (expected_answer tc) /\
    query_matches ascii_lower "unrelated" tc /\
    Forall (fun tc' => ~ query_matches ascii_lower "unrelated" tc' /\
                       query tc' <> "") before.
Proof.
  apply (match_trace_to_test_case_empty_query ascii_lower).
  - reflexivity.
  - exists {| query := ""; expected_answer := "any" |}.
    split; [right; left; reflexivity | reflexivity].
Defined.

(** ** Turn interleaving *)

Section TurnProofs.

Lemma guarded_append (f : string -> message) (l : list string)
    (messages : list message) (i : nat) :
  (if decide (i < length l)%nat
   then messages ++ [f (default "" (l !! i))] else messages)
  = messages ++ match l !! i with Some c => [f c] | None => [] end.
Proof.
  destruct (decide (i < length l)%nat) as [H|H].
  - destruct (lookup_lt_is_Some_2 l i H) as [c Hc]. rewrite Hc. reflexivity.
  - rewrite lookup_ge_None_2 by lia. rewrite app_nil_r. reflexivity.
Qed.

Lemma messages_step_turns_at us rs messages i :
  messages_step us rs messages i = messages ++ turns_at us rs i.
Proof.
  unfold messages_step, turns_at.
  rewrite (guarded_append assistant_turn), (guarded_append user_turn).
  rewrite app_assoc. reflexivity.
Qed.

Lemma fold_messages_step us rs (idx : list nat) messages :
  fold_left (messages_step us rs) idx messages
  = messages ++ flat_map (turns_at us rs) idx.
Proof.
  revert messages. induction idx as [|i idx IH]; intros messages; simpl.
  - rewrite app_nil_r. reflexivity.
  - rewrite IH, messages_step_turns_at, app_assoc. reflexivity.
Qed.

Lemma build_messages_by_index us rs :
  build_messages us rs = turns_by_index us rs.
Proof. unfold build_messages. rewrite fold_messages_step. reflexivity. Qed.

Lemma flat_map_seq_succ {A} (f : nat -> list A) (start len : nat) :
  flat_map f (seq (S start) len) = flat_map (fun i => f (S i)) (seq start len).
Proof.
  revert start. induction len as [|len IH]; intros start; simpl; [reflexivity|].
  rewrite IH. reflexivity.
Qed.

Lemma turns_at_succ us rs i :
  turns_at us rs (S i) = turns_at (tail us) (tail rs) i.
Proof. unfold turns_at. destruct us, rs; reflexivity. Qed.

Lemma turns_by_index_unfold us rs :
  (0 < Nat.max (length us) (length rs))%nat ->
  turns_by_index us rs
  = turns_at us rs 0 ++ turns_by_index (tail us) (tail rs).
Proof.
  intros Hpos. unfold turns_by_index.
  replace (Nat.max (length us) (length rs))
    with (S (Nat.max (length (tail us)) (length (tail rs))))
    by (destruct us, rs; simpl in *; lia).
  simpl. f_equal. rewrite flat_map_seq_succ.
  apply flat_map_ext. intros i. apply turns_at_succ.
Qed.

Lemma turns_by_index_responses_only rs :
  turns_by_index [] rs
  = map (fun c => {| role := "assistant"; content := c |}) rs.
Proof.
  induction rs as [|r rs IH]; [reflexivity|].
  rewrite turns_by_index_unfold by (simpl; lia).
  simpl. rewrite IH. reflexivity.
Qed.

Lemma turns_by_index_interleave us rs :
  turns_by_index us rs = interleave us rs.
Proof.
  revert rs. induction us as [|u us IH]; intros rs.
  - rewrite turns_by_index_responses_only. destruct rs; reflexivity.
  - rewrite turns_by_index_unfold by (simpl; lia).
    destruct rs as [|r rs]; simpl; rewrite IH; reflexivity.
Qed.

Lemma interleave_length us rs :
  length (interleave us rs) = (length us + length rs)%nat.
Proof.
  revert rs. induction us as [|u us IH]; intros [|r rs]; simpl;
    rewrite ?length_map, ?IH; simpl; lia.
Qed.

(** C2: the turns [process_traces] builds from [user_inputs] and
    [agent_responses] are those read off index by index from [0] to the
    larger length less one: at index [i] a turn with role ["user"] and
    content [user_inputs[i]] where the first list has an entry, and then a
    turn with role ["assistant"] and content [agent_responses[i]] where
    the second has one; a missing side adds nothing, so there are as many
    turns as entries; and [["a"; "b"]] with [["x"]] gives user a,
    assistant x, user b. *)
Theorem build_messages_interleaves :
  (forall us rs,
      build_messages us rs
      = flat_map
          (fun i =>
             match us !! i with
             | Some c => [{| role := "user"; content := c |}]
             | None => []
             end ++
             match rs !! i with
             | Some c => [{| role := "assistant"; content := c |}]
             | None => []
             end)
          (seq 0 (Nat.max (length us) (length rs))) /\
      build_messages us rs = turns_by_index us rs /\
      build_messages us rs = interleave us rs /\
      length (build_messages us rs) = (length us + length rs)%nat) /\
  build_messages ["a"; "b"] ["x"]
    = [ {| role := "user"; content := "a" |};
        {| role := "assistant"; content := "x" |};
        {| role := "user"; content := "b" |} ].
Proof.
  split; [|reflexivity].
  intros us rs. split; [apply build_messages_by_index|].
  rewrite build_messages_by_index, turns_by_index_interleave.
  repeat split. apply interleave_length.
Qed.

End TurnProofs.

(** ** Extraction: user inputs *)

Section UserInputProofs.

Variable repr : pyval -> string.

Lemma extract_user_inputs_length t l :
  extract_user_inputs repr t = Ok l -> (length l <= 1)%nat.
Proof.
  unfold extract_user_inputs.
  destruct (trace_input t) as [[ | | | | |l'|d]|]; try (intros [= <-]; simpl; lia).
  destruct (dict_get "args" d) as [args|]; [|intros [= <-]; simpl; lia].
  destruct (truthy args); [|intros [= <-]; simpl; lia].
  destruct (py_len args) as [n|e]; simpl; [|discriminate].
  destruct (0 <? n)%Z; [|intros [= <-]; simpl; lia].
  destruct (py_first args) as [x|e]; simpl; [|discriminate].
  intros [= <-]. simpl. lia.
Qed.

(** C5, as the code has it: a mapping with key [args] gives the string form
    of the first element when the value is a non-empty list and nothing
    when the value is falsy (an empty list, [None], ...); a mapping without
    that key, and every other value that is neither a string nor [None],
    gives its own string form; a string gives itself; a missing or [None]
    input gives nothing.  Whatever is returned has at most one entry. *)
Theorem extract_user_inputs_cases t :
  (forall d x xs,
      trace_input t = Some (PDict d) ->
      dict_get "args" d = Some (PList (x :: xs)) ->
      extract_user_inputs repr t = Ok [str repr x]) /\
  (forall d args,
      trace_input t = Some (PDict d) ->
      dict_get "args" d = Some args -> truthy args = false ->
      extract_user_inputs repr t = Ok []) /\
  (forall d,
      trace_input t = Some (PDict d) -> dict_get "args" d = None ->
      extract_user_inputs repr t = Ok [str repr (PDict d)]) /\
  (forall s,
      trace_input t = Some (PStr s) -> extract_user_inputs repr t = Ok [s]) /\
  (forall v,
      trace_input t = Some v ->
      is_none v = false -> (forall d, v <> PDict d) ->
      extract_user_inputs repr t = Ok [str repr v]) /\
  (trace_input t = None \/ trace_input t = Some PNone ->
   extract_user_inputs repr t = Ok []) /\
  (forall l, extract_user_inputs repr t = Ok l -> (length l <= 1)%nat).
Proof.
  unfold extract_user_inputs. repeat split.
  - intros d x xs -> ->. reflexivity.
  - intros d args -> -> ->. reflexivity.
  - intros d -> ->. reflexivity.
  - intros s ->. reflexivity.
  - intros v -> Hnone Hdict.
    destruct v; try reflexivity; [discriminate | exfalso; eapply Hdict; eauto].
  - intros [-> | ->]; reflexivity.
  - apply extract_user_inputs_length.
Qed.

(** A string under [args] gives its first character; a non-empty mapping
    or a non-zero number there makes the block raise. *)
Lemma extract_user_inputs_odd_args t d args :
  trace_input t = Some (PDict d) ->
  dict_get "args" d = Some args -> truthy args = true ->
  match args with
  | PList (x :: _) => extract_user_inputs repr t = Ok [str repr x]
  | PStr (String c _) =>
      extract_user_inputs repr t = Ok [String c EmptyString]
  | _ => exists e, extract_user_inputs repr t = Raise e
  end.
Proof.
  unfold extract_user_inputs. intros -> -> Ht.
  destruct args as [ |b|n|m e|s|l|d']; simpl in Ht |- *; try discriminate;
    rewrite ?Ht; simpl; eauto.
  { destruct s; [discriminate | reflexivity]. }
  { destruct l; [discriminate | reflexivity]. }
  { destruct d'; [discriminate|]. simpl. eauto. }
Qed.

End UserInputProofs.

(** C5 at instances: one trace per case. *)
Lemma extract_user_inputs_cases_witness :
  let mk i := {| trace_id := "t"; trace_input := i; trace_output := None;
                 trace_metadata := None; trace_observations := None |} in
  extract_user_inputs example_repr
    (mk (Some (PDict [("args", PList [PStr "hello"; PInt 2])]))) = Ok ["hello"] /\
  extract_user_inputs example_repr
    (mk (Some (PDict [("kwargs", PNone); ("args", PList [])]))) = Ok [] /\
  extract_user_inputs example_repr
    (mk (Some (PDict [("q", PInt 1)]))) = Ok ["<object>"] /\
  extract_user_inputs example_repr (mk (Some (PStr "hi"))) = Ok ["hi"] /\
  extract_user_inputs example_repr (mk (Some (PInt 7))) = Ok ["7"] /\
  extract_user_inputs example_repr (mk None) = Ok [].
Proof.
  intros mk.
  split; [|split; [|split; [|split; [|split]]]].
  - apply (proj1 (extract_user_inputs_cases example_repr _)
             [("args", PList [PStr "hello"; PInt 2])] (PStr "hello") [PInt 2]);
      reflexivity.
  - apply (proj1 (proj2 (extract_user_inputs_cases example_repr _))
             [("kwargs", PNone); ("args", PList [])] (PList []));
      reflexivity.
  - apply (proj1 (proj2 (proj2 (extract_user_inputs_cases example_repr _)))
             [("q", PInt 1)]); reflexivity.
  - apply (proj1 (proj2 (proj2 (proj2
             (extract_user_inputs_cases example_repr _)))) "hi"); reflexivity.
  - apply (proj1 (proj2 (proj2 (proj2 (proj2
             (extract_user_inputs_cases example_repr (mk (Some (PInt 7))))))))
             (PInt 7)); [reflexivity | reflexivity | discriminate].
  - apply (proj1 (proj2 (proj2 (proj2 (proj2 (proj2
             (extract_user_inputs_cases example_repr (mk None)))))))).
    left. reflexivity.
Defined.

(** C5 as stated fails: under the mapping [{"args": []}] it asks for the
    string form of the mapping, the code appends nothing. *)
Lemma extract_user_inputs_empty_args_counterexample :
  let t := {| trace_id := "t";
              trace_input := Some (PDict [("args", PList [])]);
              trace_output := None; trace_metadata := None;
              trace_observations := None |} in
  extract_user_inputs example_repr t = Ok [] /\
  extract_user_inputs example_repr t
    <> Ok [str example_repr (PDict [("args", PList [])])].
Proof. split; [reflexivity | discriminate]. Qed.

(** ** Extraction: observations *)

Section ObservationProofs.

Variable lower : string -> string.
Variable repr : pyval -> string.
Variable fetch : pyval -> result (list observation).

(** C6: an observation with a truthy (non-empty) name appends exactly one
    record to [tool_usages], carrying the name and the input and output
    with [None] in place of a missing or empty one; it also appends the
    string form of its output to [retrieved_contexts] when the lowercased
    name contains ["retrieve"] and the output is non-empty, and leaves
    [retrieved_contexts] alone otherwise; an observation with no name or an
    empty one changes neither list. *)
Theorem process_observation_cases tus rcs obs :
  (forall name,
      obs_name obs = Some name -> truthy name = true ->
      fst (process_observation lower repr (tus, rcs) obs)
      = tus ++ [{| tool_name := str repr name;
                   tool_input := attr_or_none (obs_input obs);
                   tool_output := attr_or_none (obs_output obs) |}]) /\
  (forall name output,
      obs_name obs = Some name -> truthy name = true ->
      contains "retrieve" (lower (str repr name)) = true ->
      obs_output obs = Some output -> truthy output = true ->
      snd (process_observation lower repr (tus, rcs) obs)
      = rcs ++ [str repr output]) /\
  (forall name,
      obs_name obs = Some name -> truthy name = true ->
      contains "retrieve" (lower (str repr name)) = false \/
      obs_output obs = None \/
      (exists output, obs_output obs = Some output /\ truthy output = false) ->
      snd (process_observation lower repr (tus, rcs) obs) = rcs) /\
  (obs_name obs = None \/
   (exists name, obs_name obs = Some name /\ truthy name = false) ->
   process_observation lower repr (tus, rcs) obs = (tus, rcs)).
Proof.
  unfold process_observation. repeat split.
  - intros name -> ->. destruct (_ && _); reflexivity.
  - intros name output -> -> -> -> Ht. simpl. rewrite Ht. simpl.
    rewrite Ht. reflexivity.
  - intros name -> -> [-> | [-> | (output & -> & Ht)]]; simpl;
      rewrite ?Ht, ?andb_false_r; reflexivity.
  - intros [-> | (name & -> & ->)]; reflexivity.
Qed.

Lemma fetch_observations_all ids fetched acc :
  Forall2 (fun i obs => fetch i = Ok obs) ids fetched ->
  fetch_observations lower repr fetch ids acc
  = (fold_left (process_observation lower repr) (concat fetched) acc, None).
Proof.
  intros H. revert acc. induction H as [|i obs ids fetched Hi _ IH];
    intros acc; simpl; [reflexivity|].
  rewrite Hi, IH, fold_left_app. reflexivity.
Qed.



Lemma extract_span_components_eq t ui tools :
  extract_user_inputs repr t = Ok ui ->
  extract_available_tools t = Ok tools ->
  extract_span_components lower repr fetch t
  = Ok {| user_inputs := ui;
          agent_responses := extract_agent_responses repr t;
          retrieved_contexts := snd (fst (extract_observations lower repr fetch t));
          tool_usages := fst (fst (extract_observations lower repr fetch t));
          available_tools := default (PList []) tools |}.
Proof.
  intros Hui Htools. unfold extract_span_components. rewrite Hui. simpl.
  destruct (extract_observations lower repr fetch t) as [[tus rcs] logged].
  rewrite Htools. reflexivity.
Qed.

End ObservationProofs.

(** C6 at instances: ["RetrieveDocs"] with an output lands in both lists,
    ["Summarize"] in [tool_usages] only, a nameless observation nowhere. *)
Lemma process_observation_cases_witness :
  process_observation ascii_lower example_repr ([], [])
    (named_observation "RetrieveDocs" (PStr "doc A"))
  = ([{| tool_name := "RetrieveDocs"; tool_input := PNone;
         tool_output := PStr "doc A" |}], ["doc A"]) /\
  snd (process_observation ascii_lower example_repr ([], [])
         (named_observation "Summarize" (PStr "short"))) = [] /\
  process_observation ascii_lower example_repr ([], [])
    {| obs_name := Some (PStr ""); obs_input := None;
       obs_output := Some (PStr "x") |} = ([], []).
Proof.
  pose proof (process_observation_cases ascii_lower example_repr [] []
                (named_observation "RetrieveDocs" (PStr "doc A")))
    as (Htool & Hctx & _ & _).
  pose proof (process_observation_cases ascii_lower example_repr [] []
                (named_observation "Summarize" (PStr "short")))
    as (_ & _ & Hplain & _).
  pose proof (process_observation_cases ascii_lower example_repr [] []
                {| obs_name := Some (PStr ""); obs_input := None;
                   obs_output := Some (PStr "x") |})
    as (_ & _ & _ & Hnameless).
  split; [|split].
  - apply injective_projections.
    + apply (Htool (PStr "RetrieveDocs")); reflexivity.
    + apply (Hctx (PStr "RetrieveDocs") (PStr "doc A")); reflexivity.
  - apply (Hplain (PStr "Summarize")); [reflexivity | reflexivity |].
    left. reflexivity.
  - apply Hnameless. right. exists (PStr ""). split; reflexivity.
Defined.

(** ** Extraction: a failing fetch *)

Section FetchFailureProofs.

Variable lower : string -> string.
Variable repr : pyval -> string.
Variable fetch : pyval -> result (list observation).



End FetchFailureProofs.



(** ** Extraction: when it returns *)

Section TotalityProofs.

Variable lower : string -> string.
Variable repr : pyval -> string.
Variable fetch : pyval -> result (list observation).

Lemma returns_ok {A} (a : A) : returns (Ok a).
Proof. exists a. reflexivity. Qed.

Lemma returns_raise {A} (e : exn) : ~ returns (@Raise A e).
Proof. intros [a H]. discriminate. Qed.

Local Hint Resolve returns_ok : core.

Ltac settle :=
  simpl; unfold mbind, result_bind; simpl;
  match goal with
  | |- returns (Ok _) <-> _ => split; [reflexivity | auto]
  | |- returns (Raise _) <-> _ =>
      split; [intros H; destruct (returns_raise _ H) | discriminate]
  end.

Lemma extract_user_inputs_returns t :
  returns (extract_user_inputs repr t) <-> input_readable t = true.
Proof.
  unfold extract_user_inputs, input_readable.
  destruct (trace_input t) as [[ | | | | |l|d]|]; try settle.
  destruct (dict_get "args" d) as [[ |b|n|m e|s|l|d']|]; try settle.
  - destruct b; settle.
  - simpl. destruct (n =? 0)%Z; settle.
  - simpl. destruct (m =? 0)%Z; settle.
  - destruct s; settle.
  - destruct l; settle.
  - destruct d'; settle.
Qed.

Lemma attributes_returns a :
  returns (has_tools ← py_in "agent.tools" a;
           if has_tools : bool
           then tools ← py_getitem "agent.tools" a; Ok (Some tools)
           else Ok None)
  <-> attributes_readable a = true.
Proof.
  destruct a as [ |b|n|m e|s|l|d]; try settle.
  - simpl. destruct (contains "agent.tools" s); settle.
  - simpl. destruct (existsb (is_str "agent.tools") l); settle.
  - simpl. unfold dict_has. destruct (dict_get "agent.tools" d); settle.
Qed.

Lemma extract_available_tools_returns t :
  returns (extract_available_tools t) <-> metadata_readable t = true.
Proof.
  unfold extract_available_tools, metadata_readable.
  destruct (trace_metadata t) as [m|]; [|settle].
  destruct (truthy m) eqn:Ht; [|settle].
  destruct m as [ |b|n|m e|s|l|d]; try settle.
  - simpl. destruct (contains "attributes" s); settle.
  - simpl. destruct (existsb (is_str "attributes") l); settle.
  - simpl. unfold dict_has.
    destruct (dict_get "attributes" d) as [a|]; [|settle].
    simpl. apply attributes_returns.
Qed.

Lemma extract_span_components_returns t :
  returns (extract_span_components lower repr fetch t) <->
  returns (extract_user_inputs repr t) /\ returns (extract_available_tools t).
Proof.
  unfold extract_span_components.
  destruct (extract_user_inputs repr t) as [ui|e]; simpl.
  - destruct (extract_observations lower repr fetch t) as [[tus rcs] logged].
    destruct (extract_available_tools t) as [tools|e]; simpl.
    + split; auto.
    + split; [intros H | intros [_ H]]; destruct (returns_raise _ H).
  - split; [intros H | intros [H _]]; destruct (returns_raise _ H).
Qed.

Lemma process_trace_returns test_cases acc t :
  returns (extract_span_components lower repr fetch t) ->
  returns (process_trace lower repr fetch test_cases acc t).
Proof.
  intros [c Hc]. unfold process_trace. destruct acc as [samples mapping].
  rewrite Hc. simpl. destruct (user_inputs c); auto.
Qed.

Lemma process_traces_from_returns test_cases traces acc :
  Forall (fun t => returns (extract_span_components lower repr fetch t)) traces ->
  returns (process_traces_from lower repr fetch test_cases traces acc).
Proof.
  intros H. revert acc. induction H as [|t traces Ht _ IH]; intros acc; simpl.
  - auto.
  - destruct (process_trace_returns test_cases acc t Ht) as [acc' Hacc'].
    rewrite Hacc'. simpl. apply IH.
Qed.

Lemma process_traces_from_raise test_cases pre t post e acc :
  Forall (fun t' => returns (extract_span_components lower repr fetch t')) pre ->
  extract_span_components lower repr fetch t = Raise e ->
  process_traces_from lower repr fetch test_cases (pre ++ t :: post) acc
  = Raise e.
Proof.
  intros Hpre Ht. revert acc.
  induction Hpre as [|t' pre Ht' _ IH]; intros acc; simpl.
  - unfold process_trace. destruct acc. rewrite Ht. reflexivity.
  - destruct (process_trace_returns test_cases acc t' Ht')
      as [acc' Hacc']. rewrite Hacc'. simpl. apply IH.
Qed.

(** C7, as the code has it: only the loop over the observations sits in a
    [try].  Whatever the fetcher does, extraction returns a component set
    exactly when [trace.input] and [trace.metadata] have a shape the other
    blocks read without raising; the two lists filled from the
    observations are then those the loop had built when it ended or was
    left by an exception; a batch of such traces runs to its end; and a
    trace of another shape raises and ends the batch it is in with its
    exception. *)
Theorem extract_span_components_returns_iff_readable :
  (forall t,
      returns (extract_span_components lower repr fetch t) <->
      input_readable t = true /\ metadata_readable t = true) /\
  (forall t c,
      extract_span_components lower repr fetch t = Ok c ->
      (tool_usages c, retrieved_contexts c)
      = fst (extract_observations lower repr fetch t)) /\
  (forall test_cases traces,
      Forall (fun t => input_readable t = true /\ metadata_readable t = true)
        traces ->
      returns (process_traces lower repr fetch test_cases traces)) /\
  (forall test_cases pre t post,
      Forall (fun t' => input_readable t' = true /\ metadata_readable t' = true)
        pre ->
      input_readable t = false \/ metadata_readable t = false ->
      exists e,
        extract_span_components lower repr fetch t = Raise e /\
        process_traces lower repr fetch test_cases (pre ++ t :: post)
        = Raise e).
Proof.
  assert (Hiff : forall t,
             returns (extract_span_components lower repr fetch t) <->
             input_readable t = true /\ metadata_readable t = true).
  { intros t. rewrite extract_span_components_returns,
      extract_user_inputs_returns, extract_available_tools_returns.
    reflexivity. }
  split; [exact Hiff|]. split; [|split].
  - intros t c. unfold extract_span_components.
    destruct (extract_user_inputs repr t) as [ui|e]; simpl; [|discriminate].
    destruct (extract_observations lower repr fetch t) as [[tus rcs] logged].
    destruct (extract_available_tools t) as [tools|e]; simpl; [|discriminate].
    intros [= <-]. reflexivity.
  - intros test_cases traces H. apply process_traces_from_returns.
    eapply Forall_impl; [exact H|]. intros t Ht. apply Hiff, Ht.
  - intros test_cases pre t post Hpre Hbad.
    destruct (extract_span_components lower repr fetch t) as [c|e] eqn:Ht.
    + assert (Hok : input_readable t = true /\ metadata_readable t = true).
      { apply Hiff. rewrite Ht. apply returns_ok. }
      destruct Hok as [Hi Hm], Hbad as [Hbad|Hbad]; congruence.
    + exists e. split; [reflexivity|].
      apply process_traces_from_raise; [|exact Ht].
      eapply Forall_impl; [exact Hpre|]. intros t' Ht'. apply Hiff, Ht'.
Qed.

End TotalityProofs.

(** C7 at an instance: a fetcher that raises on every identifier. *)
Lemma extract_span_components_returns_iff_readable_witness :
  returns (extract_span_components ascii_lower example_repr
             (fun _ => Raise (ServiceError "down")) three_observations_trace) /\
  returns (process_traces ascii_lower example_repr
             (fun _ => Raise (ServiceError "down")) []
             [three_observations_trace; three_observations_trace]).
Proof.
  pose proof (extract_span_components_returns_iff_readable ascii_lower
                example_repr (fun _ => Raise (ServiceError "down")))
    as (Hiff & _ & Hbatch & _).
  split.
  - apply Hiff. split; reflexivity.
  - apply Hbatch. repeat constructor.
Defined.

(** C7 as stated fails: with [None] under [attributes] in the metadata,
    [extract_span_components] raises, and the batch that holds the trace
    raises with it. *)
Lemma extract_span_components_raises_counterexample :
  extract_span_components ascii_lower example_repr (fetch_failing_on "")
    null_attributes_trace
  = Raise (TypeError "argument is not iterable") /\
  process_traces ascii_lower example_repr (fetch_failing_on "") []
    [three_observations_trace; null_attributes_trace; three_observations_trace]
  = Raise (TypeError "argument is not iterable").
Proof. split; reflexivity. Qed.

(** ** Samples and their mapping *)

Section SampleProofs.

Variable lower : string -> string.
Variable repr : pyval -> string.
Variable fetch : pyval -> result (list observation).

Lemma process_traces_from_app test_cases ts1 ts2 acc :
  process_traces_from lower repr fetch test_cases (ts1 ++ ts2) acc
  = process_traces_from lower repr fetch test_cases ts1 acc
      ≫= process_traces_from lower repr fetch test_cases ts2.
Proof.
  revert acc. induction ts1 as [|t ts1 IH]; intros acc; simpl; [reflexivity|].
  destruct (process_trace lower repr fetch test_cases acc t) as [acc'|e]; simpl;
    [apply IH | reflexivity].
Qed.

Lemma process_traces_from_snoc test_cases ts t samples mapping :
  process_traces_from lower repr fetch test_cases ts ([], [])
    = Ok (samples, mapping) ->
  process_traces_from lower repr fetch test_cases (ts ++ [t]) ([], [])
    = process_trace lower repr fetch test_cases (samples, mapping) t.
Proof.
  intros Hrun. rewrite process_traces_from_app, Hrun.
  change (process_trace lower repr fetch test_cases (samples, mapping) t
            ≫= (fun acc' => Ok acc')
          = process_trace lower repr fetch test_cases (samples, mapping) t).
  destruct (process_trace lower repr fetch test_cases (samples, mapping) t);
    reflexivity.
Qed.

Lemma process_trace_eq test_cases samples mapping t c :
  extract_span_components lower repr fetch t = Ok c ->
  process_trace lower repr fetch test_cases (samples, mapping) t
  = match user_inputs c with
    | [] => Ok (samples, mapping)
    | u :: _ =>
        Ok (samples ++
              [{| user_input :=
                    build_messages (user_inputs c) (agent_responses c);
                  reference := match_trace_to_test_case lower u test_cases |}],
            mapping ++
              [{| m_trace_id := trace_id t;
                  m_type := "multi_turn";
                  m_index := (Z.of_nat (length (samples ++
                      [{| user_input :=
                            build_messages (user_inputs c) (agent_responses c);
                          reference :=
                            match_trace_to_test_case lower u test_cases |}]))
                              - 1)%Z |}])
    end.
Proof.
  intros Hc. unfold process_trace. rewrite Hc. simpl.
  destruct (user_inputs c); reflexivity.
Qed.

Lemma filter_has_user_inputs_snoc ts t c :
  extract_span_components lower repr fetch t = Ok c ->
  List.filter (has_user_inputs lower repr fetch) (ts ++ [t])
  = List.filter (has_user_inputs lower repr fetch) ts ++
    match user_inputs c with [] => [] | _ :: _ => [t] end.
Proof.
  intros Hc. rewrite List.filter_app. simpl.
  unfold has_user_inputs at 2. rewrite Hc.
  destruct (user_inputs c); reflexivity.
Qed.

Lemma lookup_snoc_inv {A} (l : list A) (x y : A) (i : nat) :
  (l ++ [x]) !! i = Some y ->
  (i < length l)%nat /\ l !! i = Some y \/ i = length l /\ y = x.
Proof.
  intros H. destruct (decide (i < length l)%nat) as [Hlt|Hge].
  - left. rewrite lookup_app_l in H by assumption. auto.
  - right. rewrite lookup_app_r in H by lia.
    destruct (i - length l)%nat eqn:E; simpl in H; [|discriminate].
    injection H as <-. split; [lia | reflexivity].
Qed.

(** C1, as the code has it: when extraction returns for every trace of
    the list, [process_traces] returns samples and a mapping that hold
    exactly one entry for each trace with a non-empty [user_inputs], in
    the order of the traces, and none for the others; the two sequences
    have equal length and the entry at position [i] has index [i], type
    ["multi_turn"] and the identifier of its trace. *)
Theorem process_traces_one_entry_per_kept_trace test_cases traces :
  Forall (fun t => returns (extract_span_components lower repr fetch t)) traces ->
  exists samples mapping,
    process_traces lower repr fetch test_cases traces = Ok (samples, mapping) /\
    length samples = length (List.filter (has_user_inputs lower repr fetch) traces) /\
    length mapping = length samples /\
    (forall i m, mapping !! i = Some m ->
                 m_index m = Z.of_nat i /\ m_type m = "multi_turn") /\
    (forall i t,
        List.filter (has_user_inputs lower repr fetch) traces !! i = Some t ->
        mapping !! i = Some {| m_trace_id := trace_id t;
                               m_type := "multi_turn";
                               m_index := Z.of_nat i |} /\
        exists c u us,
          extract_span_components lower repr fetch t = Ok c /\
          user_inputs c = u :: us /\
          samples !! i
          = Some {| user_input :=
                      build_messages (user_inputs c) (agent_responses c);
                    reference := match_trace_to_test_case lower u test_cases |}).
Proof.
  intros Hall.
  cut (exists samples mapping,
    process_traces lower repr fetch test_cases traces = Ok (samples, mapping) /\
    length samples = length (List.filter (has_user_inputs lower repr fetch) traces) /\
    length mapping = length samples /\
    (forall i t,
        List.filter (has_user_inputs lower repr fetch) traces !! i = Some t ->
        mapping !! i = Some {| m_trace_id := trace_id t;
                               m_type := "multi_turn";
                               m_index := Z.of_nat i |} /\
        exists c u us,
          extract_span_components lower repr fetch t = Ok c /\
          user_inputs c = u :: us /\
          samples !! i
          = Some {| user_input :=
                      build_messages (user_inputs c) (agent_responses c);
                    reference := match_trace_to_test_case lower u test_cases |})).
  { intros (samples & mapping & Hrun & Hlen & Hlen' & Hentries).
    exists samples, mapping.
    split; [exact Hrun|]. split; [exact Hlen|]. split; [exact Hlen'|].
    split; [|exact Hentries].
    intros i m Hi.
    destruct (lookup_lt_is_Some_2
                (List.filter (has_user_inputs lower repr fetch) traces) i)
      as [t Ht]; [apply lookup_lt_Some in Hi; lia|].
    destruct (Hentries i t Ht) as [Hm _]. rewrite Hm in Hi.
    injection Hi as <-. split; reflexivity. }
  unfold process_traces.
  induction traces as [|t traces IH] using rev_ind.
  - exists [], []. split; [reflexivity|]. split; [reflexivity|].
    split; [reflexivity|]. intros i t H. discriminate.
  - apply Forall_app in Hall as [Hall Ht]. inversion Ht as [|?? Hret _]; subst.
    destruct (IH Hall) as (samples & mapping & Hrun & Hlen & Hlen' & Hentries).
    destruct Hret as [c Hc].
    rewrite (process_traces_from_snoc _ _ _ _ _ Hrun).
    rewrite (process_trace_eq _ _ _ _ _ Hc).
    rewrite !(filter_has_user_inputs_snoc _ _ _ Hc).
    destruct (user_inputs c) as [|u us] eqn:Hui; simpl.
    + exists samples, mapping. rewrite app_nil_r. auto.
    + eexists _, _. split; [reflexivity|].
      rewrite !length_app. simpl. split; [lia|]. split; [lia|].
      intros i t' Hi. apply lookup_snoc_inv in Hi as [[Hlt Hi] | [-> ->]].
      * destruct (Hentries i t' Hi) as (Hm & c' & u' & us' & Hc' & Hui' & Hs).
        rewrite !lookup_app_l by lia. split; [exact Hm|].
        exists c', u', us'. auto.
      * rewrite !lookup_app_r by lia.
        replace (length _ - length mapping)%nat with 0%nat by lia.
        replace (length _ - length samples)%nat with 0%nat by lia.
        simpl. split.
        -- do 2 f_equal. lia.
        -- exists c, u, us. rewrite Hui. auto.
Qed.

End SampleProofs.

(** C1 at an instance: three traces, the middle one without input. *)
Lemma process_traces_one_entry_per_kept_trace_witness :
  exists samples mapping,
    process_traces ascii_lower example_repr (fetch_failing_on "o3") []
      [three_observations_trace; silent_trace; three_observations_trace]
    = Ok (samples, mapping) /\
    length samples = 2%nat /\
    map m_index mapping = [0%Z; 1%Z] /\
    map m_trace_id mapping = ["trace-1"; "trace-1"].
Proof.
  destruct (process_traces_one_entry_per_kept_trace
              ascii_lower example_repr (fetch_failing_on "o3") []
              [three_observations_trace; silent_trace; three_observations_trace])
    as (samples & mapping & Hrun & Hlen & _).
  - repeat constructor; eexists; reflexivity.
  - exists samples, mapping. split; [exact Hrun|]. split; [exact Hlen|].
    injection Hrun as _ <-. split; reflexivity.
Defined.

(** C1 as stated fails: the trace has no user input, yet it does not pass
    silently; [process_traces] raises and returns no sequences at all. *)
Lemma process_traces_raises_counterexample :
  extract_user_inputs example_repr null_attributes_trace = Ok [] /\
  process_traces ascii_lower example_repr (fetch_failing_on "") []
    [null_attributes_trace]
  = Raise (TypeError "argument is not iterable").
Proof. split; reflexivity. Qed.

(** ** Ingestion: the counters of one company *)

Section CompanyProofs.

Variable World : Type.
Variable get_filings : string -> World -> World * result (list filing).
Variable download_filing :
  string -> filing -> string -> World -> World * result (option string).
Variable upload_to_s3 :
  string -> string -> string -> string -> World -> World * result bool.

(** One filing adds at most one to [downloaded], and adds to [uploaded]
    only when it added to [downloaded]. *)
Lemma process_filing_counts bucket_name sym w r f :
  let r' := snd (process_filing World download_filing upload_to_s3
                   bucket_name sym (w, r) f) in
  total_filings r' = total_filings r /\
  (downloaded r <= downloaded r' <= downloaded r + 1)%Z /\
  (uploaded r <= uploaded r')%Z /\
  (uploaded r' - uploaded r <= downloaded r' - downloaded r)%Z.
Proof.
  unfold process_filing.
  destruct (download_filing (linkToFilingDetails f) f sym w)
    as [w1 [[path|]|e]]; simpl; try lia.
  destruct (negb (path =? "")); simpl; try lia.
  destruct (upload_to_s3 bucket_name path sym _ w1) as [w2 [[|]|e]];
    simpl; lia.
Qed.

Lemma process_filings_counts bucket_name sym filings w r :
  let r' := snd (fold_left (process_filing World download_filing upload_to_s3
                              bucket_name sym) filings (w, r)) in
  total_filings r' = total_filings r /\
  (downloaded r <= downloaded r'
     <= downloaded r + Z.of_nat (length filings))%Z /\
  (uploaded r <= uploaded r')%Z /\
  (uploaded r' - uploaded r <= downloaded r' - downloaded r)%Z.
Proof.
  revert w r. induction filings as [|f filings IH]; intros w r.
  - simpl. lia.
  - pose proof (process_filing_counts bucket_name sym w r f) as Hstep.
    cbn [fold_left].
    destruct (process_filing World download_filing upload_to_s3
                bucket_name sym (w, r) f) as [w1 r1].
    specialize (IH w1 r1). cbv zeta in *. cbn [snd] in Hstep.
    rewrite length_cons, Nat2Z.inj_succ. lia.
Qed.

(** C10: when the filings source returns a list, [process_company]
    returns a result whose [total_filings] is the length of that list and
    whose counters satisfy [0 <= uploaded <= downloaded <= total_filings]. *)
Theorem process_company_counts bucket_name sym w w1 filings :
  get_filings sym w = (w1, Ok filings) ->
  exists w2 r,
    process_company World get_filings download_filing upload_to_s3
      bucket_name sym w = (w2, Ok r) /\
    total_filings r = Z.of_nat (length filings) /\
    (0 <= uploaded r <= downloaded r)%Z /\
    (downloaded r <= total_filings r)%Z.
Proof.
  intros Hget. unfold process_company. rewrite Hget.
  destruct filings as [|f filings].
  - eexists _, _. split; [reflexivity|]. simpl. lia.
  - set (r0 := {| symbol := sym;
                  total_filings := Z.of_nat (length (f :: filings));
                  downloaded := 0; uploaded := 0; errors := [] |}).
    pose proof (process_filings_counts bucket_name sym (f :: filings) w1 r0)
      as Hcounts.
    destruct (fold_left _ (f :: filings) (w1, r0)) as [w2 r] eqn:Hfold.
    simpl in Hcounts. exists w2, r. split; [reflexivity|].
    unfold r0 in Hcounts. simpl in Hcounts. simpl. lia.
Qed.

End CompanyProofs.

(** C10 at an instance: two filings, the second of which cannot be
    downloaded. *)
Lemma process_company_counts_witness :
  exists w2 r,
    process_company nat example_get_filings example_download_filing
      example_upload_to_s3 "bucket" "ACME" 0%nat = (w2, Ok r) /\
    total_filings r = 2%Z /\
    (0 <= uploaded r <= downloaded r)%Z /\
    (downloaded r <= total_filings r)%Z.
Proof.
  apply (process_company_counts nat example_get_filings example_download_filing
           example_upload_to_s3 "bucket" "ACME" 0%nat 1%nat
           [ {| periodOfReport := "2023-12-31";
                linkToFilingDetails := "https://example.org/a";
                accessionNo := "0001" |};
             {| periodOfReport := "2022-12-31";
                linkToFilingDetails := "https://example.org/b";
                accessionNo := "0002" |} ]).
  reflexivity.
Defined.

(** ** Ingestion: one failing company among many *)

Section CompaniesProofs.

Variable World : Type.
Variable get_filings : string -> World -> World * result (list filing).
Variable download_filing :
  string -> filing -> string -> World -> World * result (option string).
Variable upload_to_s3 :
  string -> string -> string -> string -> World -> World * result bool.
Variable save_results : overall_results -> World -> World * result unit.

Local Abbreviation company :=
  (process_company World get_filings download_filing upload_to_s3).
Local Abbreviation step :=
  (process_companies_step World get_filings download_filing upload_to_s3).
Local Abbreviation loop :=
  (process_companies_loop World get_filings download_filing upload_to_s3).

Lemma loop_app bucket_name pre post st :
  loop bucket_name (pre ++ post) st
  = loop bucket_name post (loop bucket_name pre st).
Proof. apply fold_left_app. Qed.

Lemma step_entry bucket_name st sym :
  company_results (snd (step bucket_name st sym)) !! sym
  = Some match snd (company bucket_name sym (fst st)) with
         | Ok results => results
         | Raise e => failed_company sym e
         end.
Proof.
  destruct st as [w o]. unfold process_companies_step. simpl.
  destruct (process_company _ _ _ _ bucket_name sym w) as [w1 [r|e]]; simpl;
    apply lookup_insert_eq.
Qed.

Lemma step_other bucket_name st sym k :
  k <> sym ->
  company_results (snd (step bucket_name st sym)) !! k
  = company_results (snd st) !! k.
Proof.
  intros Hne. destruct st as [w o]. unfold process_companies_step.
  destruct (process_company _ _ _ _ bucket_name sym w) as [w1 [r|e]]; simpl;
    apply lookup_insert_ne; congruence.
Qed.

Lemma loop_other bucket_name symbols st k :
  k ∉ symbols ->
  company_results (snd (loop bucket_name symbols st)) !! k
  = company_results (snd st) !! k.
Proof.
  revert st. induction symbols as [|s symbols IH]; intros st Hk; [reflexivity|].
  apply not_elem_of_cons in Hk as [Hne Hk].
  change (loop bucket_name (s :: symbols) st)
    with (loop bucket_name symbols (step bucket_name st s)).
  rewrite IH by assumption. apply step_other, Hne.
Qed.

Lemma loop_keeps bucket_name symbols st k :
  is_Some (company_results (snd st) !! k) ->
  is_Some (company_results (snd (loop bucket_name symbols st)) !! k).
Proof.
  revert st. induction symbols as [|s symbols IH]; intros st Hk; [exact Hk|].
  change (loop bucket_name (s :: symbols) st)
    with (loop bucket_name symbols (step bucket_name st s)).
  apply IH. destruct (decide (k = s)) as [->|Hne].
  - rewrite step_entry. eauto.
  - rewrite step_other by assumption. exact Hk.
Qed.

Lemma loop_covers bucket_name symbols st k :
  k ∈ symbols ->
  is_Some (company_results (snd (loop bucket_name symbols st)) !! k).
Proof.
  revert st. induction symbols as [|s symbols IH]; intros st Hk.
  - apply elem_of_nil in Hk. destruct Hk.
  - change (loop bucket_name (s :: symbols) st)
      with (loop bucket_name symbols (step bucket_name st s)).
    apply elem_of_cons in Hk as [->|Hk]; [|apply IH, Hk].
    apply loop_keeps. rewrite step_entry. eauto.
Qed.

(** The entry of a symbol is the outcome of its last processing. *)
Lemma entry_of_last_occurrence bucket_name pre sym post st :
  sym ∉ post ->
  company_results
    (snd (loop bucket_name (pre ++ sym :: post) st)) !! sym
  = Some match snd (company bucket_name sym
                      (fst (loop bucket_name pre st))) with
         | Ok results => results
         | Raise e => failed_company sym e
         end.
Proof.
  intros Hpost. rewrite loop_app.
  change (loop bucket_name (sym :: post) (loop bucket_name pre st))
    with (loop bucket_name post (step bucket_name (loop bucket_name pre st) sym)).
  rewrite loop_other by assumption. apply step_entry.
Qed.

(** C8: when processing the company [sym] raises, the loop stores for
    [sym] an entry with zero counts and the failure as its only error, and
    goes on with the symbols that follow from that very state.  At the end
    every symbol of the list has an entry: that of [sym] is the failure
    entry unless [sym] comes again later, and that of any other symbol
    whose last processing returned is the result returned.  The aggregate
    is what [process_companies] returns once it is written out. *)
Theorem process_companies_isolates_failure
    bucket_name pre sym post w w1 o1 w2 e :
  loop bucket_name pre (w, initial_overall_results) = (w1, o1) ->
  company bucket_name sym w1 = (w2, Raise e) ->
  let failure :=
    {| symbol := sym; total_filings := 0; downloaded := 0; uploaded := 0;
       errors := ["Error processing company " +:+ sym +:+ ": " +:+ exn_str e] |} in
  let final :=
    loop bucket_name (pre ++ sym :: post) (w, initial_overall_results) in
  final = loop bucket_name post (w2, record_failure sym e o1) /\
  company_results (record_failure sym e o1) !! sym = Some failure /\
  (sym ∉ post -> company_results (snd final) !! sym = Some failure) /\
  (forall s, s ∈ pre ++ sym :: post ->
             is_Some (company_results (snd final) !! s)) /\
  (forall pre' s post' results,
      pre ++ sym :: post = pre' ++ s :: post' -> s ∉ post' ->
      snd (company bucket_name s
             (fst (loop bucket_name pre' (w, initial_overall_results))))
        = Ok results ->
      company_results (snd final) !! s = Some results) /\
  (forall w3,
      save_results (snd final) (fst final) = (w3, Ok tt) ->
      process_companies World get_filings download_filing upload_to_s3
        save_results bucket_name (pre ++ sym :: post) w
      = (w3, Ok (snd final))).
Proof.
  intros Hpre Hraise failure final.
  assert (Hfinal : final = loop bucket_name post (w2, record_failure sym e o1)).
  { unfold final. rewrite loop_app, Hpre.
    change (loop bucket_name (sym :: post) (w1, o1))
      with (loop bucket_name post (step bucket_name (w1, o1) sym)).
    f_equal. unfold process_companies_step.
    rewrite Hraise. reflexivity. }
  split; [exact Hfinal|]. split; [apply lookup_insert_eq|].
  split; [|split; [|split]].
  - intros Hpost. unfold final.
    rewrite entry_of_last_occurrence by assumption.
    rewrite Hpre. simpl. rewrite Hraise. reflexivity.
  - intros s Hs. apply loop_covers, Hs.
  - intros pre' s post' results Hsplit Hpost' Hok. unfold final.
    rewrite Hsplit, entry_of_last_occurrence by assumption.
    rewrite Hok. reflexivity.
  - intros w3 Hsave. unfold process_companies.
    fold final. destruct final as [wf overall]. simpl in Hsave.
    rewrite Hsave. reflexivity.
Qed.

End CompaniesProofs.

(** C8 at an instance: of three companies the second fails; it gets the
    failure entry, the other two get theirs, and the aggregate is
    returned. *)
Lemma process_companies_isolates_failure_witness :
  let final :=
    process_companies_loop nat example_get_filings example_download_filing
      example_upload_to_s3 "bucket" ["ACME"; "BAD"; "NONE"]
      (0%nat, initial_overall_results) in
  company_results (snd final) !! "BAD"
  = Some {| symbol := "BAD"; total_filings := 0; downloaded := 0;
            uploaded := 0;
            errors := ["Error processing company BAD: quota exceeded"] |} /\
  is_Some (company_results (snd final) !! "ACME") /\
  is_Some (company_results (snd final) !! "NONE") /\
  process_companies nat example_get_filings example_download_filing
    example_upload_to_s3 example_save_results "bucket"
    ["ACME"; "BAD"; "NONE"] 0%nat
  = (S (fst final), Ok (snd final)).
Proof.
  intros final.
  destruct (process_companies_isolates_failure
              nat example_get_filings example_download_filing
              example_upload_to_s3 example_save_results
              "bucket" ["ACME"] "BAD" ["NONE"] 0%nat _ _ _
              (ServiceError "quota exceeded") eq_refl eq_refl)
    as (_ & _ & Hentry & Hall & _ & Hsave).
  split; [|split; [|split]].
  - apply Hentry. intros Hin. apply list_elem_of_singleton in Hin. discriminate.
  - apply Hall. apply elem_of_cons. left. reflexivity.
  - apply Hall. do 2 (apply elem_of_cons; right).
    apply elem_of_cons. left. reflexivity.
  - apply Hsave. reflexivity.
Defined.

(** C3 at instances: a query found inside the input, two matching entries
    of which the earlier wins, and an input no entry matches. *)
Lemma match_trace_to_test_case_first_match_witness :
  match_trace_to_test_case ascii_lower "What is the Revenue?"
    [ {| query := "revenue"; expected_answer := "42" |};
      {| query := "what"; expected_answer := "other" |} ] = Some "42" /\
  match_trace_to_test_case ascii_lower "unrelated"
    [ {| query := "revenue"; expected_answer := "42" |} ] = None.
Proof.
  split.
  - apply (proj1 (match_trace_to_test_case_first_match ascii_lower
                    "What is the Revenue?" _)).
    exists [], {| query := "revenue"; expected_answer := "42" |},
      [ {| query := "what"; expected_answer := "other" |} ].
    repeat split; [|constructor].
    exists "what is the ", "?". reflexivity.
  - apply (proj2 (match_trace_to_test_case_first_match ascii_lower
                    "unrelated" _)).
    repeat constructor. intros Hm.
    apply (proj2 (contains_spec _ _)) in Hm. discriminate.
Defined.

(** ** More on the trace normaliser *)

Section NormalizerExtras.

Variable lower : string -> string.
Variable repr : pyval -> string.

(** X1: the samples and the mapping do not depend on the observation
    fetcher: what the observations give (tool usages, retrieved contexts)
    never reaches a sample. *)
Theorem process_traces_ignores_fetch
    (fetch1 fetch2 : pyval -> result (list observation)) test_cases traces :
  process_traces lower repr fetch1 test_cases traces
  = process_traces lower repr fetch2 test_cases traces.
Proof.
  unfold process_traces. generalize (@nil MultiTurnSample, @nil mapping_entry).
  induction traces as [|t traces IH]; intros acc; simpl; [reflexivity|].
  assert (Hstep : process_trace lower repr fetch1 test_cases acc t
                  = process_trace lower repr fetch2 test_cases acc t).
  { unfold process_trace, extract_span_components. destruct acc as [ss ms].
    destruct (extract_user_inputs repr t) as [ui|e]; simpl; [|reflexivity].
    destruct (extract_observations lower repr fetch1 t) as [[tus1 rcs1] l1].
    destruct (extract_observations lower repr fetch2 t) as [[tus2 rcs2] l2].
    destruct (extract_available_tools t) as [tools|e]; reflexivity. }
  rewrite Hstep.
  destruct (process_trace lower repr fetch2 test_cases acc t); simpl;
    [apply IH | reflexivity].
Qed.

Variable fetch : pyval -> result (list observation).

(** X2: the first trace whose extraction raises ends the run with that very
    exception; nothing is returned for the traces before it and the traces
    after it are not looked at. *)
Theorem process_traces_stops_at_first_raise test_cases pre t post e :
  Forall (fun t' => returns (extract_span_components lower repr fetch t')) pre ->
  extract_span_components lower repr fetch t = Raise e ->
  process_traces lower repr fetch test_cases (pre ++ t :: post) = Raise e.
Proof. intros Hpre Ht. apply process_traces_from_raise; assumption. Qed.




End NormalizerExtras.

(** X2 at an instance: the second of three traces raises. *)
Lemma process_traces_stops_at_first_raise_witness :
  process_traces ascii_lower example_repr (fetch_failing_on "o3") []
    ([three_observations_trace] ++ null_attributes_trace :: [silent_trace])
  = Raise (TypeError "argument is not iterable").
Proof.
  apply process_traces_stops_at_first_raise.
  - repeat constructor. eexists. reflexivity.
  - reflexivity.
Defined.


Section BatchExtras.

Variable lower : string -> string.
Variable repr : pyval -> string.
Variable fetch : pyval -> result (list observation).

Lemma index_shift {A} (s0 s1 : list A) (x : A) :
  (Z.of_nat (length ((s0 ++ s1) ++ [x])) - 1
   = Z.of_nat (length (s1 ++ [x])) - 1 + Z.of_nat (length s0))%Z.
Proof. rewrite !length_app. simpl length. lia. Qed.

Lemma process_traces_from_shift test_cases traces s0 m0 s m :
  process_traces_from lower repr fetch test_cases traces ([], []) = Ok (s, m) ->
  process_traces_from lower repr fetch test_cases traces (s0, m0)
  = Ok (s0 ++ s, m0 ++ map (shift_index (length s0)) m).
Proof.
  revert s m. induction traces as [|t traces IH] using rev_ind; intros s m.
  - simpl. intros [= <- <-]. rewrite !app_nil_r. reflexivity.
  - rewrite !process_traces_from_app.
    destruct (process_traces_from lower repr fetch test_cases traces ([], []))
      as [[s1 m1]|e] eqn:Hrun; [|intros H; discriminate H].
    rewrite (IH s1 m1 eq_refl).
    change (process_trace lower repr fetch test_cases (s1, m1) t
              ≫= (fun acc' => Ok acc') = Ok (s, m) ->
            process_trace lower repr fetch test_cases
              (s0 ++ s1, m0 ++ map (shift_index (length s0)) m1) t
              ≫= (fun acc' => Ok acc')
            = Ok (s0 ++ s, m0 ++ map (shift_index (length s0)) m)).
    destruct (extract_span_components lower repr fetch t) as [c|e] eqn:Hc.
    + rewrite !(process_trace_eq lower repr fetch _ _ _ _ _ Hc).
      destruct (user_inputs c) as [|u us]; simpl.
      * intros [= <- <-]. reflexivity.
      * intros [= <- <-]. rewrite map_app, !app_assoc. simpl.
        unfold shift_index. simpl. rewrite index_shift. reflexivity.
    + unfold process_trace. rewrite Hc. intros H. discriminate H.
Qed.

(** X4: a batch can be cut in two: when both parts run through, the whole
    run gives the samples of the first part followed by those of the
    second, and the mapping of the second part with its indices moved up
    by the number of samples of the first. *)
Theorem process_traces_app test_cases ts1 ts2 s1 m1 s2 m2 :
  process_traces lower repr fetch test_cases ts1 = Ok (s1, m1) ->
  process_traces lower repr fetch test_cases ts2 = Ok (s2, m2) ->
  process_traces lower repr fetch test_cases (ts1 ++ ts2)
  = Ok (s1 ++ s2, m1 ++ map (shift_index (length s1)) m2).
Proof.
  unfold process_traces. intros H1 H2.
  rewrite process_traces_from_app, H1. simpl.
  apply process_traces_from_shift, H2.
Qed.

Lemma process_observation_retrieval tus rcs obs :
  rcs = map (fun u => str repr (tool_output u))
          (List.filter (is_retrieval lower) tus) ->
  let '(tus', rcs') := process_observation lower repr (tus, rcs) obs in
  rcs' = map (fun u => str repr (tool_output u))
           (List.filter (is_retrieval lower) tus').
Proof.
  intros Hinv. unfold process_observation.
  destruct (obs_name obs) as [name|]; [|exact Hinv].
  destruct (truthy name); [|exact Hinv].
  destruct (contains "retrieve" (lower (str repr name))
            && truthy (attr_or_none (obs_output obs))) eqn:Hret;
    rewrite List.filter_app, map_app, <- Hinv; simpl;
    unfold is_retrieval; simpl; rewrite Hret; simpl;
    [reflexivity | symmetry; apply app_nil_r].
Qed.

Lemma fold_process_observation_retrieval observations tus rcs :
  rcs = map (fun u => str repr (tool_output u))
          (List.filter (is_retrieval lower) tus) ->
  let '(tus', rcs') :=
    fold_left (process_observation lower repr) observations (tus, rcs) in
  rcs' = map (fun u => str repr (tool_output u))
           (List.filter (is_retrieval lower) tus').
Proof.
  revert tus rcs. induction observations as [|obs observations IH];
    intros tus rcs Hinv; cbn [fold_left]; [exact Hinv|].
  pose proof (process_observation_retrieval tus rcs obs Hinv) as Hstep.
  destruct (process_observation lower repr (tus, rcs) obs) as [tus1 rcs1].
  apply IH, Hstep.
Qed.

Lemma fetch_observations_retrieval ids tus rcs :
  rcs = map (fun u => str repr (tool_output u))
          (List.filter (is_retrieval lower) tus) ->
  let '((tus', rcs'), _) :=
    fetch_observations lower repr fetch ids (tus, rcs) in
  rcs' = map (fun u => str repr (tool_output u))
           (List.filter (is_retrieval lower) tus').
Proof.
  revert tus rcs. induction ids as [|i ids IH]; intros tus rcs Hinv;
    cbn [fetch_observations]; [exact Hinv|].
  destruct (fetch i) as [observations|e]; [|exact Hinv].
  pose proof (fold_process_observation_retrieval observations tus rcs Hinv)
    as Hfold.
  destruct (fold_left (process_observation lower repr) observations (tus, rcs))
    as [tus1 rcs1].
  apply IH, Hfold.
Qed.

Lemma filter_length_bound {A} (f : A -> bool) (l : list A) :
  (length (List.filter f l) <= length l)%nat.
Proof. induction l as [|x l IH]; simpl; [lia|]. destruct (f x); simpl; lia. Qed.

(** X5: in every component set the retrieved contexts are determined by
    the tool usages: they are the string forms of the outputs of the
    recorded usages whose lowercased name contains ["retrieve"] and whose
    output is truthy, in the same order; so there are never more contexts
    than usages, also after a failed fetch. *)
Theorem extract_retrieved_contexts_from_tool_usages t c :
  extract_span_components lower repr fetch t = Ok c ->
  retrieved_contexts c
  = map (fun u => str repr (tool_output u))
      (List.filter (is_retrieval lower) (tool_usages c)) /\
  (length (retrieved_contexts c) <= length (tool_usages c))%nat.
Proof.
  intros Hc.
  assert (Heq : retrieved_contexts c
                = map (fun u => str repr (tool_output u))
                    (List.filter (is_retrieval lower) (tool_usages c))).
  { revert Hc. unfold extract_span_components.
    destruct (extract_user_inputs repr t) as [ui|e]; simpl;
      [|intros H; discriminate H].
    assert (Hobs : let '((tus, rcs), _) := extract_observations lower repr fetch t in
                   rcs = map (fun u => str repr (tool_output u))
                           (List.filter (is_retrieval lower) tus)).
    { unfold extract_observations.
      destruct (trace_observations t) as [v|]; [|reflexivity].
      destruct (py_iter v) as [ids|e]; [|reflexivity].
      apply (fetch_observations_retrieval ids [] []). reflexivity. }
    destruct (extract_observations lower repr fetch t) as [[tus rcs] logged].
    destruct (extract_available_tools t) as [tools|e]; simpl;
      [|intros H; discriminate H].
    intros [= <-]. exact Hobs. }
  split; [exact Heq|].
  rewrite Heq, length_map. apply filter_length_bound.
Qed.

Lemma process_observation_usage tus rcs obs :
  fst (process_observation lower repr (tus, rcs) obs)
  = tus ++ map (usage_of repr) (List.filter is_named [obs]).
Proof.
  unfold process_observation, is_named, usage_of. simpl.
  destruct (obs_name obs) as [name|] eqn:Hname; simpl;
    [|symmetry; apply app_nil_r].
  destruct (truthy name); simpl; [|symmetry; apply app_nil_r].
  rewrite Hname. destruct (_ && _); reflexivity.
Qed.

Lemma fold_process_observation_usage observations acc :
  fst (fold_left (process_observation lower repr) observations acc)
  = fst acc ++ map (usage_of repr) (List.filter is_named observations).
Proof.
  revert acc. induction observations as [|obs observations IH]; intros acc.
  - simpl. symmetry. apply app_nil_r.
  - cbn [fold_left]. rewrite IH. destruct acc as [tus rcs].
    rewrite process_observation_usage. simpl.
    destruct (is_named obs); simpl; rewrite <- ?app_assoc, ?app_nil_r; reflexivity.
Qed.

(** X6: when every identifier of the trace is fetched without error, the
    tool usages are exactly the records of the named observations, in the
    order of the identifiers and, under one identifier, in the order the
    fetcher gives them; observations without a name leave no trace. *)
Theorem extract_tool_usages_all_fetched t ids fetched c :
  trace_observations t = Some (PList ids) ->
  Forall2 (fun i obs => fetch i = Ok obs) ids fetched ->
  extract_span_components lower repr fetch t = Ok c ->
  tool_usages c
  = map (usage_of repr) (List.filter is_named (concat fetched)).
Proof.
  intros Hobs Hfetch. unfold extract_span_components.
  destruct (extract_user_inputs repr t) as [ui|e]; simpl;
    [|intros H; discriminate H].
  unfold extract_observations. rewrite Hobs. cbn [py_iter].
  rewrite (fetch_observations_all lower repr fetch ids fetched _ Hfetch).
  pose proof (fold_process_observation_usage (concat fetched) ([], [])) as Hfold.
  destruct (fold_left _ (concat fetched) _) as [tus rcs]. simpl in Hfold.
  destruct (extract_available_tools t) as [tools|e]; simpl;
    [|intros H; discriminate H].
  intros [= <-]. exact Hfold.
Qed.

Lemma match_app user_input c1 c2 :
  match_trace_to_test_case lower user_input (c1 ++ c2)
  = match match_trace_to_test_case lower user_input c1 with
    | Some a => Some a
    | None => match_trace_to_test_case lower user_input c2
    end.
Proof.
  induction c1 as [|tc c1 IH]; simpl; [reflexivity|].
  destruct (contains _ _); [reflexivity | exact IH].
Qed.

(** X7: entries added at the end of the catalog never change an answer
    already found, and are consulted only when the catalog before them had
    no match. *)
Theorem match_trace_to_test_case_app user_input c1 c2 :
  (forall a, match_trace_to_test_case lower user_input c1 = Some a ->
             match_trace_to_test_case lower user_input (c1 ++ c2) = Some a) /\
  (match_trace_to_test_case lower user_input c1 = None ->
   match_trace_to_test_case lower user_input (c1 ++ c2)
   = match_trace_to_test_case lower user_input c2).
Proof.
  rewrite match_app. split.
  - intros a ->. reflexivity.
  - intros ->. reflexivity.
Qed.

(** X8: matching sees the input and the queries only through their
    lowercase forms: inputs that lowercase alike, on catalogs that agree
    entry by entry up to the case of the queries, get the same answer. *)
Theorem match_trace_to_test_case_case_blind u1 u2 c1 c2 :
  lower u1 = lower u2 ->
  Forall2 (same_up_to_case lower) c1 c2 ->
  match_trace_to_test_case lower u1 c1 = match_trace_to_test_case lower u2 c2.
Proof.
  intros Hu Hc. induction Hc as [|a b c1 c2 [Hq Ha] _ IH]; simpl; [reflexivity|].
  rewrite Hu, Hq, Ha, IH. reflexivity.
Qed.

End BatchExtras.

(** X4 at an instance. *)
Lemma process_traces_app_witness :
  process_traces ascii_lower example_repr fetch_all []
    ([three_observations_trace] ++ [silent_trace; three_observations_trace])
  = Ok ([ {| user_input := [user_turn "What is the revenue?"; assistant_turn "42"];
             reference := None |} ] ++
        [ {| user_input := [user_turn "What is the revenue?"; assistant_turn "42"];
             reference := None |} ],
        [ {| m_trace_id := "trace-1"; m_type := "multi_turn"; m_index := 0 |} ] ++
        map (shift_index 1)
          [ {| m_trace_id := "trace-1"; m_type := "multi_turn"; m_index := 0 |} ]).
Proof.
  apply (process_traces_app ascii_lower example_repr fetch_all []
           [three_observations_trace] [silent_trace; three_observations_trace]);
    reflexivity.
Defined.

(** X5 at an instance: three usages, two of them retrievals. *)
Lemma extract_retrieved_contexts_from_tool_usages_witness :
  exists c,
    extract_span_components ascii_lower example_repr fetch_all
      three_observations_trace = Ok c /\
    retrieved_contexts c = ["doc A"; "doc B"] /\
    retrieved_contexts c
    = map (fun u => str example_repr (tool_output u))
        (List.filter (is_retrieval ascii_lower) (tool_usages c)) /\
    (length (retrieved_contexts c) <= length (tool_usages c))%nat.
Proof.
  eexists. split; [reflexivity|]. split; [reflexivity|].
  apply (extract_retrieved_contexts_from_tool_usages ascii_lower example_repr
           fetch_all three_observations_trace).
  reflexivity.
Defined.

(** X6 at an instance. *)
Lemma extract_tool_usages_all_fetched_witness :
  exists c,
    extract_span_components ascii_lower example_repr fetch_all
      three_observations_trace = Ok c /\
    tool_usages c
    = map (usage_of example_repr)
        (List.filter is_named
           (concat [ [named_observation "RetrieveDocs" (PStr "doc A")];
                     [named_observation "Summarize" (PStr "short")];
                     [named_observation "retrieve_more" (PStr "doc B")] ])).
Proof.
  eexists. split; [reflexivity|].
  apply (extract_tool_usages_all_fetched ascii_lower example_repr fetch_all
           three_observations_trace [PStr "o1"; PStr "o2"; PStr "o3"]).
  - reflexivity.
  - repeat constructor.
  - reflexivity.
Defined.

(** X8 at an instance. *)
Lemma match_trace_to_test_case_case_blind_witness :
  match_trace_to_test_case ascii_lower "Total REVENUE?"
    [ {| query := "Revenue"; expected_answer := "42" |} ]
  = match_trace_to_test_case ascii_lower "total revenue?"
      [ {| query := "revenue"; expected_answer := "42" |} ].
Proof.
  apply match_trace_to_test_case_case_blind.
  - reflexivity.
  - repeat constructor.
Defined.

(** ** More on the ingestion *)

Section CompanyExtras.

Variable World : Type.
Variable get_filings : string -> World -> World * result (list filing).
Variable download_filing :
  string -> filing -> string -> World -> World * result (option string).
Variable upload_to_s3 :
  string -> string -> string -> string -> World -> World * result bool.

Local Abbreviation filing_step :=
  (process_filing World download_filing upload_to_s3).
Local Abbreviation company :=
  (process_company World get_filings download_filing upload_to_s3).

(** One filing is either uploaded or leaves exactly one error. *)
Lemma process_filing_accounts bucket_name sym w r f :
  let r' := snd (filing_step bucket_name sym (w, r) f) in
  symbol r' = symbol r /\
  (uploaded r' + Z.of_nat (length (errors r'))
   = uploaded r + Z.of_nat (length (errors r)) + 1)%Z.
Proof.
  unfold process_filing.
  assert (Hlen : forall (l : list string) x,
             Z.of_nat (length (l ++ [x])) = (Z.of_nat (length l) + 1)%Z).
  { intros l x. rewrite length_app. simpl. lia. }
  destruct (download_filing (linkToFilingDetails f) f sym w)
    as [w1 [[path|]|e]]; simpl; rewrite ?Hlen;
    try (split; [reflexivity | lia]).
  destruct (negb (path =? "")); simpl; rewrite ?Hlen;
    try (split; [reflexivity | lia]).
  destruct (upload_to_s3 bucket_name path sym _ w1) as [w2 [[|]|e]];
    simpl; rewrite ?Hlen; split; (reflexivity || lia).
Qed.

Lemma process_filings_accounts bucket_name sym filings w r :
  let r' := snd (fold_left (filing_step bucket_name sym) filings (w, r)) in
  symbol r' = symbol r /\
  (uploaded r' + Z.of_nat (length (errors r'))
   = uploaded r + Z.of_nat (length (errors r)) + Z.of_nat (length filings))%Z.
Proof.
  revert w r. induction filings as [|f filings IH]; intros w r.
  - simpl. split; [reflexivity | lia].
  - pose proof (process_filing_accounts bucket_name sym w r f) as Hstep.
    cbn [fold_left].
    destruct (filing_step bucket_name sym (w, r) f) as [w1 r1].
    specialize (IH w1 r1). cbv zeta in *. cbn [snd] in Hstep.
    rewrite length_cons, Nat2Z.inj_succ.
    destruct IH as [IHsym IH], Hstep as [Hsym Hstep].
    split; [congruence | lia].
Qed.

(** X9: every filing is accounted for.  When the filings source returns a
    non-empty list, each filing is either uploaded or leaves exactly one
    error message, so [uploaded] and the number of errors add up to
    [total_filings]; when it returns the empty list the result carries the
    single error that no filings were found. *)
Theorem process_company_accounts bucket_name sym w w1 filings :
  get_filings sym w = (w1, Ok filings) ->
  exists w2 r,
    process_company World get_filings download_filing upload_to_s3
      bucket_name sym w = (w2, Ok r) /\
    symbol r = sym /\
    (filings <> [] ->
     (uploaded r + Z.of_nat (length (errors r)) = total_filings r)%Z) /\
    (filings = [] ->
     w2 = w1 /\ errors r = ["No 10K filings found for " +:+ sym]).
Proof.
  intros Hget. unfold process_company. rewrite Hget.
  destruct filings as [|f filings].
  - eexists _, _. split; [reflexivity|]. simpl. split; [reflexivity|].
    split; [congruence | auto].
  - set (r0 := {| symbol := sym;
                  total_filings := Z.of_nat (length (f :: filings));
                  downloaded := 0; uploaded := 0; errors := [] |}).
    pose proof (process_filings_accounts bucket_name sym (f :: filings) w1 r0)
      as Hacc.
    pose proof (process_filings_counts World download_filing upload_to_s3
                  bucket_name sym (f :: filings) w1 r0) as Hcounts.
    destruct (fold_left _ (f :: filings) (w1, r0)) as [w2 r] eqn:Hfold.
    cbv zeta in Hacc, Hcounts. cbn [snd] in Hacc, Hcounts.
    exists w2, r. split; [reflexivity|].
    destruct Hacc as [Hsym Hacc], Hcounts as [Htot _].
    split; [exact Hsym|]. split; [|discriminate].
    intros _. rewrite Htot. unfold r0 in Hacc |- *. simpl in Hacc |- *. lia.
Qed.

(** What a returned per-company result always satisfies. *)
Lemma process_company_entry_ok bucket_name sym w w' r :
  company bucket_name sym w = (w', Ok r) -> entry_ok sym r.
Proof.
  unfold process_company.
  destruct (get_filings sym w) as [w1 [filings|e]]; [|discriminate].
  destruct filings as [|f filings].
  - intros [= _ <-]. unfold entry_ok. simpl. split; [reflexivity | lia].
  - set (r0 := {| symbol := sym;
                  total_filings := Z.of_nat (length (f :: filings));
                  downloaded := 0; uploaded := 0; errors := [] |}).
    pose proof (process_filings_accounts bucket_name sym (f :: filings) w1 r0)
      as Hacc.
    pose proof (process_filings_counts World download_filing upload_to_s3
                  bucket_name sym (f :: filings) w1 r0) as Hcounts.
    destruct (fold_left _ (f :: filings) (w1, r0)) as [w2 r2] eqn:Hfold.
    cbv zeta in Hacc, Hcounts. cbn [snd] in Hacc, Hcounts.
    intros [= _ <-]. destruct Hacc as [Hsym _].
    unfold entry_ok. split; [exact Hsym|].
    unfold r0 in Hcounts. simpl in Hcounts. lia.
Qed.

End CompanyExtras.

(** X9 at an instance: of two filings one is uploaded, one leaves an
    error. *)
Lemma process_company_accounts_witness :
  exists w2 r,
    process_company nat example_get_filings example_download_filing
      example_upload_to_s3 "bucket" "ACME" 0%nat = (w2, Ok r) /\
    symbol r = "ACME" /\
    (uploaded r + Z.of_nat (length (errors r)) = total_filings r)%Z.
Proof.
  destruct (process_company_accounts nat example_get_filings
              example_download_filing example_upload_to_s3
              "bucket" "ACME" 0%nat _ _ eq_refl)
    as (w2 & r & Hrun & Hsym & Hacc & _).
  exists w2, r. split; [exact Hrun|]. split; [exact Hsym|].
  apply Hacc. discriminate.
Defined.

Section CompaniesExtras.

Variable World : Type.
Variable get_filings : string -> World -> World * result (list filing).
Variable download_filing :
  string -> filing -> string -> World -> World * result (option string).
Variable upload_to_s3 :
  string -> string -> string -> string -> World -> World * result bool.
Variable save_results : overall_results -> World -> World * result unit.

Local Abbreviation company :=
  (process_company World get_filings download_filing upload_to_s3).
Local Abbreviation step :=
  (process_companies_step World get_filings download_filing upload_to_s3).
Local Abbreviation loop :=
  (process_companies_loop World get_filings download_filing upload_to_s3).
Local Abbreviation companies :=
  (process_companies World get_filings download_filing upload_to_s3
     save_results).

Lemma process_companies_returned bucket_name symbols w w' o :
  companies bucket_name symbols w = (w', Ok o) ->
  o = snd (loop bucket_name symbols (w, initial_overall_results)).
Proof.
  unfold process_companies.
  destruct (loop bucket_name symbols (w, initial_overall_results)) as [w1 o1].
  destruct (save_results o1 w1) as [w2 [[]|e]]; [|discriminate].
  intros [= _ <-]. reflexivity.
Qed.

(** What one round of the loop does to the aggregate. *)
Lemma step_cases bucket_name w o sym :
  (exists w1 r,
      company bucket_name sym w = (w1, Ok r) /\
      step bucket_name (w, o) sym = (w1, record_company sym r o)) \/
  (exists w1 e,
      company bucket_name sym w = (w1, Raise e) /\
      step bucket_name (w, o) sym = (w1, record_failure sym e o)).
Proof.
  unfold process_companies_step.
  destruct (company bucket_name sym w) as [w1 [r|e]]; [left | right]; eauto.
Qed.

Lemma failed_company_ok sym e : entry_ok sym (failed_company sym e).
Proof. unfold entry_ok. simpl. split; [reflexivity | lia]. Qed.

Lemma loop_entries bucket_name symbols st :
  map_Forall entry_ok (company_results (snd st)) ->
  let final := loop bucket_name symbols st in
  dom (company_results (snd final))
    = list_to_set symbols ∪ dom (company_results (snd st)) /\
  map_Forall entry_ok (company_results (snd final)).
Proof.
  revert st. induction symbols as [|s symbols IH]; intros [w o] Hok.
  - simpl. split; [set_solver | exact Hok].
  - cbv zeta. unfold process_companies_loop. cbn [fold_left].
    fold (loop bucket_name symbols (step bucket_name (w, o) s)).
    destruct (step_cases bucket_name w o s)
      as [(w1 & r & Hrun & ->) | (w1 & e & Hrun & ->)].
    + destruct (IH (w1, record_company s r o)) as [Hdom Hall].
      { simpl. apply map_Forall_insert_2; [|exact Hok].
        eapply process_company_entry_ok, Hrun. }
      split; [|exact Hall]. rewrite Hdom. simpl. rewrite dom_insert_L.
      set_solver.
    + destruct (IH (w1, record_failure s e o)) as [Hdom Hall].
      { simpl. apply map_Forall_insert_2; [|exact Hok].
        apply failed_company_ok. }
      split; [|exact Hall]. rewrite Hdom. simpl. rewrite dom_insert_L.
      set_solver.
Qed.

(** X10: the per-company results of a returned aggregate have exactly the
    given symbols as keys, and each entry carries its key as [symbol] and
    keeps [0 <= uploaded <= downloaded <= total_filings], whether the
    company was processed or failed. *)
Theorem process_companies_entries bucket_name symbols w w' o :
  process_companies World get_filings download_filing upload_to_s3
    save_results bucket_name symbols w = (w', Ok o) ->
  dom (company_results o) = list_to_set symbols /\
  map_Forall entry_ok (company_results o).
Proof.
  intros Hrun. apply process_companies_returned in Hrun as ->.
  destruct (loop_entries bucket_name symbols (w, initial_overall_results))
    as [Hdom Hall].
  { simpl. apply map_Forall_empty. }
  split; [|exact Hall]. rewrite Hdom. simpl. rewrite dom_empty_L. set_solver.
Qed.

Lemma loop_totals bucket_name symbols st :
  let o := snd st in
  let o' := snd (loop bucket_name symbols st) in
  ((0 <= total_uploaded o <= total_downloaded o)%Z /\
   (total_downloaded o <= total_filings_found o)%Z ->
   (0 <= total_uploaded o' <= total_downloaded o')%Z /\
   (total_downloaded o' <= total_filings_found o')%Z) /\
  (companies_processed o <= companies_processed o'
     <= companies_processed o + Z.of_nat (length symbols))%Z.
Proof.
  revert st. induction symbols as [|s symbols IH]; intros [w o].
  - simpl. split; [auto | lia].
  - cbv zeta. unfold process_companies_loop. cbn [fold_left].
    fold (loop bucket_name symbols (step bucket_name (w, o) s)).
    rewrite length_cons, Nat2Z.inj_succ.
    destruct (step_cases bucket_name w o s)
      as [(w1 & r & Hrun & ->) | (w1 & e & Hrun & ->)].
    + specialize (IH (w1, record_company s r o)). cbv zeta in IH.
      destruct IH as [IHb IHc]. simpl in IHb, IHc |- *.
      pose proof (process_company_entry_ok _ _ _ _ _ _ _ _ _ Hrun)
        as (_ & Hr1 & Hr2).
      split; [intros Hb; apply IHb; lia | lia].
    + specialize (IH (w1, record_failure s e o)). cbv zeta in IH.
      destruct IH as [IHb IHc]. simpl in IHb, IHc |- *.
      split; [intros Hb; apply IHb; lia | lia].
Qed.

(** X11: in a returned aggregate the totals keep
    [0 <= total_uploaded <= total_downloaded <= total_filings_found], and
    [companies_processed] lies between [0] and the number of symbols given
    (it counts the companies whose processing returned). *)
Theorem process_companies_totals_bounds bucket_name symbols w w' o :
  process_companies World get_filings download_filing upload_to_s3
    save_results bucket_name symbols w = (w', Ok o) ->
  (0 <= total_uploaded o <= total_downloaded o)%Z /\
  (total_downloaded o <= total_filings_found o)%Z /\
  (0 <= companies_processed o <= Z.of_nat (length symbols))%Z.
Proof.
  intros Hrun. apply process_companies_returned in Hrun as ->.
  destruct (loop_totals bucket_name symbols (w, initial_overall_results))
    as [Hb Hc].
  cbv zeta in Hb, Hc. simpl in Hb, Hc.
  destruct Hb as [Hb1 Hb2]; [lia|]. repeat split; lia.
Qed.

Lemma sum_over_insert f k r (m : gmap string company_result) :
  m !! k = None ->
  sum_over f (<[k := r]> m) = (sum_over f m + f r)%Z.
Proof.
  intros Hk. unfold sum_over.
  rewrite map_fold_insert_L; [reflexivity | | exact Hk].
  intros. lia.
Qed.

Lemma loop_sums bucket_name symbols st :
  NoDup symbols ->
  (forall s, s ∈ symbols -> company_results (snd st) !! s = None) ->
  let o := snd st in
  let o' := snd (loop bucket_name symbols st) in
  total_filings_found o = sum_over total_filings (company_results o) /\
  total_downloaded o = sum_over downloaded (company_results o) /\
  total_uploaded o = sum_over uploaded (company_results o) ->
  total_filings_found o' = sum_over total_filings (company_results o') /\
  total_downloaded o' = sum_over downloaded (company_results o') /\
  total_uploaded o' = sum_over uploaded (company_results o').
Proof.
  intros Hnd. revert st. induction Hnd as [|s symbols Hs Hnd IH];
    intros [w o] Hfresh; cbv zeta; [auto|].
  unfold process_companies_loop. cbn [fold_left].
  fold (loop bucket_name symbols (step bucket_name (w, o) s)).
  assert (Hnone : company_results o !! s = None).
  { apply (Hfresh s). left. }
  intros (Hf & Hd & Hu). cbn [snd] in Hf, Hd, Hu.
  destruct (step_cases bucket_name w o s)
    as [(w1 & r & Hrun & ->) | (w1 & e & Hrun & ->)].
  - apply (IH (w1, record_company s r o)).
    + intros s' Hs'. simpl. rewrite lookup_insert_ne.
      * apply (Hfresh s'). right. exact Hs'.
      * intros ->. contradiction.
    + cbn [snd record_company total_filings_found total_downloaded
           total_uploaded company_results].
      rewrite !sum_over_insert by assumption. lia.
  - apply (IH (w1, record_failure s e o)).
    + intros s' Hs'. simpl. rewrite lookup_insert_ne.
      * apply (Hfresh s'). right. exact Hs'.
      * intros ->. contradiction.
    + cbn [snd record_failure total_filings_found total_downloaded
           total_uploaded company_results].
      rewrite !sum_over_insert by assumption.
      unfold failed_company. cbn [total_filings downloaded uploaded]. lia.
Qed.

(** X12: when no symbol is given twice, the totals of a returned aggregate
    are the sums of the counters of its per-company entries. *)
Theorem process_companies_totals_are_sums bucket_name symbols w w' o :
  NoDup symbols ->
  process_companies World get_filings download_filing upload_to_s3
    save_results bucket_name symbols w = (w', Ok o) ->
  total_filings_found o = sum_over total_filings (company_results o) /\
  total_downloaded o = sum_over downloaded (company_results o) /\
  total_uploaded o = sum_over uploaded (company_results o).
Proof.
  intros Hnd Hrun. apply process_companies_returned in Hrun as ->.
  apply (loop_sums bucket_name symbols (w, initial_overall_results) Hnd).
  - intros s _. apply lookup_empty.
  - simpl. unfold sum_over. rewrite !map_fold_empty. auto.
Qed.

End CompaniesExtras.

(** X10 to X12 at an instance: three companies, the second of which
    fails. *)
Lemma process_companies_entries_witness :
  exists w' o,
    process_companies nat example_get_filings example_download_filing
      example_upload_to_s3 example_save_results "bucket"
      ["ACME"; "BAD"; "NONE"] 0%nat = (w', Ok o) /\
    dom (company_results o) = list_to_set ["ACME"; "BAD"; "NONE"] /\
    map_Forall entry_ok (company_results o).
Proof.
  eexists _, _. split; [reflexivity|].
  eapply (process_companies_entries nat example_get_filings
           example_download_filing example_upload_to_s3 example_save_results
           "bucket" ["ACME"; "BAD"; "NONE"] 0%nat).
  reflexivity.
Defined.

Lemma process_companies_totals_bounds_witness :
  exists w' o,
    process_companies nat example_get_filings example_download_filing
      example_upload_to_s3 example_save_results "bucket"
      ["ACME"; "BAD"; "NONE"] 0%nat = (w', Ok o) /\
    (0 <= total_uploaded o <= total_downloaded o)%Z /\
    (total_downloaded o <= total_filings_found o)%Z /\
    (0 <= companies_processed o <= 3)%Z.
Proof.
  eexists _, _. split; [reflexivity|].
  eapply (process_companies_totals_bounds nat example_get_filings
           example_download_filing example_upload_to_s3 example_save_results
           "bucket" ["ACME"; "BAD"; "NONE"] 0%nat).
  reflexivity.
Defined.

Lemma process_companies_totals_are_sums_witness :
  exists w' o,
    process_companies nat example_get_filings example_download_filing
      example_upload_to_s3 example_save_results "bucket"
      ["ACME"; "BAD"; "NONE"] 0%nat = (w', Ok o) /\
    total_filings_found o = sum_over total_filings (company_results o) /\
    total_downloaded o = sum_over downloaded (company_results o) /\
    total_uploaded o = sum_over uploaded (company_results o).
Proof.
  eexists _, _. split; [reflexivity|].
  eapply (process_companies_totals_are_sums nat example_get_filings
           example_download_filing example_upload_to_s3 example_save_results
           "bucket" ["ACME"; "BAD"; "NONE"] 0%nat).
  - apply (bool_decide_unpack _). vm_compute. exact I.
  - reflexivity.
Defined.

(** ** The filings source and the company loop *)

Section FilingsSourceProofs.

Variable World : Type.
Variable query_api_get_filings :
  filings_query -> World -> World * result (list filing).
Variable download_filing :
  string -> filing -> string -> World -> World * result (option string).
Variable upload_to_s3 :
  string -> string -> string -> string -> World -> World * result bool.

(** [process_company] as the module wires it: [get_filings] is called with
    its default for [years_back]. *)
Local Abbreviation source :=
  (fun sym => get_filings World query_api_get_filings sym 5).
Local Abbreviation company :=
  (process_company World source download_filing upload_to_s3).

Lemma process_filing_errors bucket_name sym w r f :
  Forall filing_error (errors r) ->
  Forall filing_error
    (errors (snd (process_filing World download_filing upload_to_s3
                    bucket_name sym (w, r) f))).
Proof.
  intros Hr. unfold process_filing.
  destruct (download_filing (linkToFilingDetails f) f sym w)
    as [w1 [[path|]|e]]; simpl.
  - destruct (negb (path =? "")); simpl.
    + destruct (upload_to_s3 bucket_name path sym _ w1) as [w2 [[|]|e]]; simpl.
      * exact Hr.
      * apply Forall_app. split; [exact Hr|].
        constructor; [|constructor]. eexists. left. reflexivity.
      * apply Forall_app. split; [exact Hr|].
        constructor; [|constructor]. eexists. right. reflexivity.
    + apply Forall_app. split; [exact Hr|].
      constructor; [|constructor]. eexists. left. reflexivity.
  - apply Forall_app. split; [exact Hr|].
    constructor; [|constructor]. eexists. left. reflexivity.
  - apply Forall_app. split; [exact Hr|].
    constructor; [|constructor]. eexists. right. reflexivity.
Qed.

Lemma process_filings_errors bucket_name sym filings w r :
  Forall filing_error (errors r) ->
  Forall filing_error
    (errors (snd (fold_left (process_filing World download_filing upload_to_s3
                               bucket_name sym) filings (w, r)))).
Proof.
  revert w r. induction filings as [|f filings IH]; intros w r Hr;
    [exact Hr|].
  cbn [fold_left].
  pose proof (process_filing_errors bucket_name sym w r f Hr) as Hstep.
  destruct (process_filing World download_filing upload_to_s3
              bucket_name sym (w, r) f) as [w1 r1].
  apply IH, Hstep.
Qed.

(** X13: through [get_filings] the branch of [process_company] for a
    company without filings is never taken.  When the service finds no
    filings, [get_filings] raises [IndexError] on printing the first one,
    [process_company] raises with it, and [process_companies] stores the
    failure entry for the symbol.  A result that is returned has at least
    one filing, and none of its errors is the message that no filings
    were found. *)
Theorem process_company_never_reports_no_filings bucket_name sym w :
  (forall w1 o,
      query_api_get_filings
        {| query_string :=
             "formType:" +:+ dquote +:+ "10-K" +:+ dquote
               +:+ " AND ticker:" +:+ sym;
           query_from := "0";
           query_size := "5" |} w = (w1, Ok []) ->
      process_company World
        (fun s => get_filings World query_api_get_filings s 5)
        download_filing upload_to_s3 bucket_name sym w
        = (w1, Raise (IndexError "list index out of range")) /\
      process_companies_step World
        (fun s => get_filings World query_api_get_filings s 5)
        download_filing upload_to_s3 bucket_name (w, o) sym
        = (w1, record_failure sym (IndexError "list index out of range") o)) /\
  (forall w' r,
      process_company World
        (fun s => get_filings World query_api_get_filings s 5)
        download_filing upload_to_s3 bucket_name sym w = (w', Ok r) ->
      (1 <= total_filings r)%Z /\
      ~ In ("No 10K filings found for " +:+ sym) (errors r)).
Proof.
  split.
  - intros w1 o Hq.
    assert (Hrun : company bucket_name sym w
                   = (w1, Raise (IndexError "list index out of range"))).
    { unfold process_company, get_filings.
      change (pretty 5%Z) with "5". rewrite Hq. reflexivity. }
    split; [exact Hrun|]. unfold process_companies_step. rewrite Hrun.
    reflexivity.
  - intros w' r. unfold process_company, get_filings.
    destruct (query_api_get_filings _ w) as [w1 [[|f filings]|e]];
      try discriminate.
    set (r0 := {| symbol := sym;
                  total_filings := Z.of_nat (length (f :: filings));
                  downloaded := 0; uploaded := 0; errors := [] |}).
    pose proof (process_filings_errors bucket_name sym (f :: filings) w1 r0
                  (Forall_nil_2 _)) as Herr.
    pose proof (process_filings_counts World download_filing upload_to_s3
                  bucket_name sym (f :: filings) w1 r0) as Hcounts.
    destruct (fold_left _ (f :: filings) (w1, r0)) as [w2 r2].
    cbv zeta in Hcounts. cbn [snd] in Herr, Hcounts.
    intros [= _ <-]. destruct Hcounts as [Htot _]. split.
    + rewrite Htot. unfold r0. cbn [total_filings].
      rewrite length_cons, Nat2Z.inj_succ. lia.
    + intros Hin. rewrite Forall_forall in Herr.
      apply list_elem_of_In in Hin.
      destruct (Herr _ Hin) as [rest [H|H]]; discriminate H.
Qed.

End FilingsSourceProofs.

(** X13 at an instance: a service that knows no filings. *)
Lemma process_company_never_reports_no_filings_witness :
  process_company nat
    (fun sym => get_filings nat example_empty_query_api sym 5)
    example_download_filing example_upload_to_s3 "bucket" "ACME" 0%nat
  = (1%nat, Raise (IndexError "list index out of range")).
Proof.
  apply (proj1 (process_company_never_reports_no_filings nat
                  example_empty_query_api example_download_filing
                  example_upload_to_s3 "bucket" "ACME" 0%nat)
           1%nat initial_overall_results).
  reflexivity.
Defined.

(** ** Upload of preloaded documents *)

Section UploadProofs.

Variable World : Type.
Variable upload_to_s3 :
  string -> string -> string -> string -> World -> World * result bool.

Local Abbreviation file_step := (upload_file World upload_to_s3).
Local Abbreviation company_step := (upload_company World upload_to_s3).
Local Abbreviation year_step := (upload_year World upload_to_s3).

Lemma fold_raising_invariant {S A : Type} (P : S -> Prop)
    (body : S -> A -> World -> World * result S) l :
  (forall s x w w' s', P s -> body s x w = (w', Ok s') -> P s') ->
  forall s w w' s',
    P s -> fold_raising World body l s w = (w', Ok s') -> P s'.
Proof.
  intros Hbody. induction l as [|x l IH]; intros s w w' s' Hs; simpl.
  - intros [= _ <-]. exact Hs.
  - destruct (body s x w) as [w1 [s1|e]] eqn:Hx; [|discriminate].
    apply IH. eapply Hbody; eassumption.
Qed.

Lemma upload_progress_refl r : upload_progress [] r r.
Proof. unfold upload_progress. simpl. split; [set_solver | lia]. Qed.

Lemma upload_progress_trans n1 n2 r1 r2 r3 :
  upload_progress n1 r1 r2 -> upload_progress n2 r2 r3 ->
  upload_progress (n1 ++ n2) r1 r3.
Proof.
  unfold upload_progress. intros [Hd1 Hc1] [Hd2 Hc2].
  rewrite Hd2, Hd1, list_to_set_app_L, length_app, Nat2Z.inj_add.
  split; [set_solver | lia].
Qed.

Lemma fold_raising_progress {A : Type} (names : A -> list string)
    (body : upload_results -> A -> World -> World * result upload_results) l :
  (forall r x w w' r',
      body r x w = (w', Ok r') -> upload_progress (names x) r r') ->
  forall r w w' r',
    fold_raising World body l r w = (w', Ok r') ->
    upload_progress (flat_map names l) r r'.
Proof.
  intros Hbody. induction l as [|x l IH]; intros r w w' r'; simpl.
  - intros [= _ <-]. apply upload_progress_refl.
  - destruct (body r x w) as [w1 [r1|e]] eqn:Hx; [|discriminate].
    intros Hrest. eapply upload_progress_trans; [eapply Hbody, Hx|].
    eapply IH, Hrest.
Qed.

Lemma sum_values_insert_new k n (m : gmap string Z) :
  m !! k = None -> sum_values (<[k := n]> m) = (sum_values m + n)%Z.
Proof.
  intros Hk. unfold sum_values.
  rewrite map_fold_insert_L; [reflexivity | | exact Hk]. intros. lia.
Qed.

Lemma sum_values_insert_old k n n' (m : gmap string Z) :
  m !! k = Some n ->
  sum_values (<[k := n']> m) = (sum_values m - n + n')%Z.
Proof.
  intros Hk. rewrite <- (insert_delete_eq m k n').
  rewrite sum_values_insert_new by apply lookup_delete_eq.
  unfold sum_values at 2.
  rewrite (map_fold_delete_L _ _ k n m); [|intros; lia | exact Hk].
  fold (sum_values (delete k m)). lia.
Qed.

Lemma upload_file_invariant bucket_name sym year r path w w' r' :
  upload_invariant r ->
  file_step bucket_name sym year r path w = (w', Ok r') ->
  upload_invariant r' /\
  dom (up_company_results r') = dom (up_company_results r) /\
  up_companies_processed r' = up_companies_processed r.
Proof.
  intros (Hsum & Hpos & Hcp). unfold upload_file.
  destruct (upload_to_s3 bucket_name path sym year w) as [w1 [[|]|e]];
    [| |discriminate].
  - destruct (up_company_results r !! sym) as [n|] eqn:Hn; [|discriminate].
    intros [= _ <-]. unfold upload_invariant. simpl.
    repeat split.
    + rewrite (sum_values_insert_old sym n) by exact Hn. lia.
    + apply map_Forall_insert_2; [|exact Hpos].
      specialize (Hpos sym n Hn). simpl in Hpos. lia.
    + exact Hcp.
    + rewrite dom_insert_L. apply elem_of_dom_2 in Hn. set_solver.
  - intros [= _ <-]. repeat split; assumption.
Qed.

Lemma upload_files_invariant bucket_name sym year files r w w' r' :
  upload_invariant r ->
  fold_raising World (file_step bucket_name sym year) files r w = (w', Ok r') ->
  upload_invariant r' /\
  dom (up_company_results r') = dom (up_company_results r) /\
  up_companies_processed r' = up_companies_processed r.
Proof.
  revert r w. induction files as [|path files IH]; intros r w Hr; simpl.
  - intros [= _ <-]. auto.
  - destruct (file_step bucket_name sym year r path w) as [w1 [r1|e]] eqn:Hx;
      [|discriminate].
    destruct (upload_file_invariant _ _ _ _ _ _ _ _ Hr Hx) as (Hr1 & Hd1 & Hc1).
    intros Hrest. destruct (IH r1 w1 Hr1 Hrest) as (Hr' & Hd' & Hc').
    split; [exact Hr'|]. split; congruence.
Qed.

Lemma upload_company_invariant bucket_name year r c w w' r' :
  upload_invariant r ->
  company_step bucket_name year r c w = (w', Ok r') ->
  upload_invariant r' /\
  upload_progress (if company_is_dir c then [company_name c] else []) r r'.
Proof.
  intros Hr. unfold upload_company.
  destruct (company_is_dir c); simpl.
  2:{ intros [= _ <-]. split; [exact Hr | apply upload_progress_refl]. }
  set (r0 := match up_company_results r !! company_name c with
             | Some _ => r
             | None => _
             end).
  assert (Hr0 : upload_invariant r0 /\
                dom (up_company_results r0)
                  = dom (up_company_results r) ∪ {[company_name c]} /\
                up_companies_processed r0 = up_companies_processed r).
  { unfold r0. destruct Hr as (Hsum & Hpos & Hcp).
    destruct (up_company_results r !! company_name c) as [n|] eqn:Hn.
    - split; [repeat split; assumption|]. split; [|reflexivity].
      apply elem_of_dom_2 in Hn. set_solver.
    - unfold upload_invariant. simpl. repeat split.
      + rewrite sum_values_insert_new by exact Hn. lia.
      + apply map_Forall_insert_2; [lia | exact Hpos].
      + exact Hcp.
      + rewrite dom_insert_L. set_solver. }
  destruct Hr0 as (Hinv0 & Hdom0 & Hcp0).
  destruct (fold_raising World _ (html_files c) r0 w) as [w1 [r1|e]] eqn:Hfiles;
    [|discriminate].
  destruct (upload_files_invariant _ _ _ _ _ _ _ _ Hinv0 Hfiles)
    as (Hinv1 & Hdom1 & Hcp1).
  destruct (up_company_results r1 !! company_name c) as [n|]; [|discriminate].
  destruct (n =? 0)%Z.
  - intros [= _ <-]. split; [exact Hinv1|]. unfold upload_progress. simpl.
    split; [rewrite Hdom1, Hdom0; set_solver | lia].
  - intros [= _ <-]. destruct Hinv1 as (Hsum & Hpos & Hcp).
    split; [repeat split; simpl; (assumption || lia)|].
    unfold upload_progress. simpl.
    split; [rewrite Hdom1, Hdom0; set_solver | lia].
Qed.

Lemma upload_year_invariant bucket_name r y w w' r' :
  upload_invariant r ->
  year_step bucket_name r y w = (w', Ok r') ->
  upload_invariant r' /\
  upload_progress
    (if year_is_dir y
     then map company_name (List.filter company_is_dir (company_entries y))
     else []) r r'.
Proof.
  intros Hr. unfold upload_year. destruct (year_is_dir y); simpl.
  2:{ intros [= _ <-]. split; [exact Hr | apply upload_progress_refl]. }
  generalize (company_entries y). intros cs. revert r w Hr.
  induction cs as [|c cs IH]; intros r w Hr; simpl.
  - intros [= _ <-]. split; [exact Hr | apply upload_progress_refl].
  - destruct (company_step bucket_name (year_name y) r c w)
      as [w1 [r1|e]] eqn:Hc; [|discriminate].
    destruct (upload_company_invariant _ _ _ _ _ _ _ Hr Hc) as [Hr1 Hp1].
    intros Hrest. destruct (IH r1 w1 Hr1 Hrest) as [Hr' Hp'].
    split; [exact Hr'|].
    destruct (company_is_dir c); simpl.
    + apply (upload_progress_trans [company_name c] _ r r1 r'); assumption.
    + apply (upload_progress_trans [] _ r r1 r'); assumption.
Qed.

(** X14: in what [upload_companies] returns, [total_uploaded] is the sum
    of the per-company counts, none of which is negative; the companies
    listed are exactly the names of the company directories under the year
    directories; and [companies_processed] is at most the number of visits
    to such directories (a company found under two years and uploaded
    counts once per year). *)
Theorem upload_companies_consistent bucket_name preloaded w w' r :
  upload_companies World upload_to_s3 bucket_name preloaded w = (w', Ok r) ->
  up_total_uploaded r = sum_values (up_company_results r) /\
  map_Forall (fun _ n => (0 <= n)%Z) (up_company_results r) /\
  dom (up_company_results r) = list_to_set (visited_companies preloaded) /\
  (0 <= up_companies_processed r
     <= Z.of_nat (length (visited_companies preloaded)))%Z.
Proof.
  unfold upload_companies, visited_companies.
  set (r0 := {| up_companies_processed := 0; up_total_uploaded := 0;
                up_company_results := ∅ |}).
  assert (Hr0 : upload_invariant r0).
  { unfold upload_invariant, r0, sum_values. simpl.
    rewrite map_fold_empty. repeat split; [apply map_Forall_empty | lia]. }
  assert (Hgen : forall l s w0,
             upload_invariant s ->
             fold_raising World (year_step bucket_name) l s w0 = (w', Ok r) ->
             upload_invariant r /\
             upload_progress
               (flat_map (fun y =>
                  if year_is_dir y
                  then map company_name
                         (List.filter company_is_dir (company_entries y))
                  else []) l) s r).
  { induction l as [|y l IH]; intros s w0 Hs; simpl.
    - intros [= _ <-]. split; [exact Hs | apply upload_progress_refl].
    - destruct (year_step bucket_name s y w0) as [w1 [s1|e]] eqn:Hy;
        [|discriminate].
      destruct (upload_year_invariant _ _ _ _ _ _ Hs Hy) as [Hs1 Hp1].
      intros Hrest. destruct (IH s1 w1 Hs1 Hrest) as [Hr' Hp'].
      split; [exact Hr'|]. eapply upload_progress_trans; eassumption. }
  intros Hrun. destruct (Hgen preloaded r0 w Hr0 Hrun) as [Hinv [Hdom Hcp]].
  destruct Hinv as (Hsum & Hpos & Hcp0).
  split; [exact Hsum|]. split; [exact Hpos|]. split.
  - rewrite Hdom. unfold r0. simpl. rewrite dom_empty_L. set_solver.
  - unfold r0 in Hcp. simpl in Hcp. lia.
Qed.

End UploadProofs.

(** X14 at an instance: ["ACME"] is found under two years and counted
    twice in [companies_processed], once in the company results. *)
Lemma upload_companies_consistent_witness :
  exists w' r,
    upload_companies nat example_upload_to_s3 "bucket" example_preloaded 0%nat
      = (w', Ok r) /\
    up_companies_processed r = 2%Z /\
    up_total_uploaded r = sum_values (up_company_results r) /\
    dom (up_company_results r) = list_to_set ["ACME"; "EMPTY"; "ACME"].
Proof.
  eexists _, _. split; [reflexivity|]. split; [reflexivity|].
  edestruct (upload_companies_consistent nat example_upload_to_s3 "bucket"
               example_preloaded 0%nat) as (Hsum & _ & Hdom & _);
    [reflexivity|].
  split; [exact Hsum | exact Hdom].
Defined.

(** ** Running the test cases *)

Section RunTestCasesProofs.

Variable World : Type.
Variable agent : string -> World -> World * result pyval.
Variable sleep : Z -> World -> World * result unit.

Lemma run_test_case_appends delay n i tc w results :
  exists o extra,
    snd (run_test_case World agent sleep delay n i tc (w, results))
      = results ++ o :: extra /\
    outcome_query o = query tc /\
    (extra = [] \/ exists m, extra = [Errored (query tc) m]) /\
    ((forall w0, exists w1, sleep delay w0 = (w1, Ok tt)) -> extra = []).
Proof.
  unfold run_test_case.
  destruct (agent (query tc) w) as [w1 [response|e]].
  - destruct (Z.of_nat i <? Z.of_nat n - 1)%Z.
    + destruct (sleep delay w1) as [w2 [[]|e]] eqn:Hsleep; simpl.
      * eexists _, []. repeat split; auto.
      * eexists _, [_]. rewrite <- app_assoc. repeat split; eauto.
        intros Hok. destruct (Hok w1) as [w3 Hw3]. congruence.
    + eexists _, []. simpl. repeat split; auto.
  - eexists _, []. simpl. repeat split; auto.
Qed.

Lemma run_test_cases_from_queries delay n i test_cases w results :
  (forall w0, exists w1, sleep delay w0 = (w1, Ok tt)) ->
  map outcome_query
    (snd (run_test_cases_from World agent sleep delay n i test_cases (w, results)))
  = map outcome_query results ++ map query test_cases.
Proof.
  intros Hsleep. revert i w results.
  induction test_cases as [|tc test_cases IH]; intros i w results.
  - simpl. rewrite app_nil_r. reflexivity.
  - cbn [run_test_cases_from].
    destruct (run_test_case_appends delay n i tc w results)
      as (o & extra & Hstep & Hq & _ & Hextra).
    rewrite (Hextra Hsleep) in Hstep.
    destruct (run_test_case World agent sleep delay n i tc (w, results))
      as [w1 results1]. simpl in Hstep. subst results1.
    rewrite IH, map_app. simpl. rewrite Hq, <- app_assoc. reflexivity.
Qed.

Lemma run_test_cases_from_length delay n i test_cases w results :
  (length results + length test_cases
   <= length (snd (run_test_cases_from World agent sleep delay n i test_cases
                     (w, results)))
   <= length results + 2 * length test_cases)%nat.
Proof.
  revert i w results.
  induction test_cases as [|tc test_cases IH]; intros i w results.
  - simpl. lia.
  - cbn [run_test_cases_from].
    destruct (run_test_case_appends delay n i tc w results)
      as (o & extra & Hstep & _ & Hextra & _).
    destruct (run_test_case World agent sleep delay n i tc (w, results))
      as [w1 results1]. simpl in Hstep. subst results1.
    specialize (IH (S i) w1 (results ++ o :: extra)).
    rewrite length_app in IH. simpl in IH |- *.
    destruct Hextra as [-> | [m ->]]; simpl in IH; lia.
Qed.

(** X15: [run_test_cases_sync] never stops early: whatever the agent does,
    it returns at least one outcome per test case and at most two; and
    when the pause between the calls goes through, it returns exactly one
    outcome per test case, in order, each carrying the query of its test
    case. *)
Theorem run_test_cases_sync_outcomes test_cases delay w :
  (length test_cases
   <= length (snd (run_test_cases_sync World agent sleep test_cases delay w))
   <= 2 * length test_cases)%nat /\
  ((forall w0, exists w1, sleep delay w0 = (w1, Ok tt)) ->
   map outcome_query
     (snd (run_test_cases_sync World agent sleep test_cases delay w))
   = map query test_cases).
Proof.
  unfold run_test_cases_sync. split.
  - pose proof (run_test_cases_from_length delay (length test_cases) 0
                  test_cases w []) as H. simpl in H. lia.
  - intros Hsleep. rewrite run_test_cases_from_queries by exact Hsleep.
    reflexivity.
Qed.

End RunTestCasesProofs.

(** X15 at an instance: the agent fails on the second of three test
    cases. *)
Lemma run_test_cases_sync_outcomes_witness :
  map outcome_query
    (snd (run_test_cases_sync nat example_agent example_sleep
            [ {| query := "revenue"; expected_answer := "42" |};
              {| query := "boom"; expected_answer := "none" |};
              {| query := "profit"; expected_answer := "7" |} ] 4 0%nat))
  = ["revenue"; "boom"; "profit"].
Proof.
  apply (proj2 (run_test_cases_sync_outcomes nat example_agent example_sleep
                  [ {| query := "revenue"; expected_answer := "42" |};
                    {| query := "boom"; expected_answer := "none" |};
                    {| query := "profit"; expected_answer := "7" |} ] 4 0%nat)).
  intros w0. exists (S w0). reflexivity.
Defined.

(** ** Provisioning of the vector store *)

Section VectorStoreProofs.

Variable World : Type.
Variable s3vectors_create_vector_bucket : string -> World -> World * outcome unit.
Variable s3vectors_get_vector_bucket : string -> World -> World * outcome pyval.
Variable s3vectors_create_index :
  string -> string -> Z -> World -> World * outcome unit.
Variable s3vectors_list_indexes : string -> World -> World * outcome pyval.

(** X16: [create_vector_bucket] returns only a truthy ARN, the one found
    under [vectorBucket] / [vectorBucketArn] in the answer of the
    service after the bucket was created; an answer without the key
    [vectorBucket] makes it raise [ValueError]. *)
Theorem create_vector_bucket_arn name w :
  (forall w' arn,
      create_vector_bucket World s3vectors_create_vector_bucket
        s3vectors_get_vector_bucket name w = (w', Returned arn) ->
      truthy arn = true /\
      exists w1 d info,
        s3vectors_create_vector_bucket name w = (w1, Returned tt) /\
        s3vectors_get_vector_bucket name w1 = (w', Returned (PDict d)) /\
        dict_get "vectorBucket" d = Some (PDict info) /\
        dict_get "vectorBucketArn" info = Some arn) /\
  (forall w1 w2 d,
      s3vectors_create_vector_bucket name w = (w1, Returned tt) ->
      s3vectors_get_vector_bucket name w1 = (w2, Returned (PDict d)) ->
      dict_get "vectorBucket" d = None ->
      create_vector_bucket World s3vectors_create_vector_bucket
        s3vectors_get_vector_bucket name w
      = (w2, Raised (ValueError "Vector bucket ARN not found in response"))).
Proof.
  unfold create_vector_bucket. split.
  - intros w' arn.
    destruct (s3vectors_create_vector_bucket name w) as [w1 [[]|e]] eqn:Hcreate;
      [|discriminate].
    destruct (s3vectors_get_vector_bucket name w1) as [w2 [response|e]] eqn:Hget;
      [|discriminate].
    destruct response as [ | | | | | |d]; try discriminate. simpl.
    destruct (dict_get "vectorBucket" d) as [info|] eqn:Hinfo;
      [|discriminate].
    destruct info as [ | | | | | |info]; try discriminate. simpl.
    destruct (dict_get "vectorBucketArn" info) as [a|] eqn:Harn;
      [|discriminate].
    destruct (truthy a) eqn:Ha; [|discriminate]. simpl.
    intros [= <- <-]. split; [exact Ha|]. exists w1, d, info.
    repeat split; assumption.
  - intros w1 w2 d -> -> Hd. simpl. rewrite Hd. reflexivity.
Qed.

(** X17: [create_and_get_index_arn] returns the truthy ARN of the first
    index the service lists for the bucket, whatever its name; when the
    service lists no index at all it raises [IndexError]. *)
Theorem create_and_get_index_arn_first store index dimension w :
  (forall w' arn,
      create_and_get_index_arn World s3vectors_create_index
        s3vectors_list_indexes store index dimension w = (w', Returned arn) ->
      truthy arn = true /\
      exists w1 d first rest,
        s3vectors_create_index store index dimension w = (w1, Returned tt) /\
        s3vectors_list_indexes store w1 = (w', Returned (PDict d)) /\
        dict_get "indexes" d = Some (PList (PDict first :: rest)) /\
        dict_get "indexArn" first = Some arn) /\
  (forall w1 w2 d,
      s3vectors_create_index store index dimension w = (w1, Returned tt) ->
      s3vectors_list_indexes store w1 = (w2, Returned (PDict d)) ->
      dict_get "indexes" d = Some (PList []) ->
      create_and_get_index_arn World s3vectors_create_index
        s3vectors_list_indexes store index dimension w
      = (w2, Raised (OtherError (IndexError "list index out of range")))).
Proof.
  unfold create_and_get_index_arn. split.
  - intros w' arn.
    destruct (s3vectors_create_index store index dimension w)
      as [w1 [[]|e]] eqn:Hcreate; [|discriminate].
    destruct (s3vectors_list_indexes store w1) as [w2 [response|e]] eqn:Hlist;
      [|discriminate].
    destruct response as [ | | | | | |d]; try discriminate. simpl.
    destruct (dict_get "indexes" d) as [indexes|] eqn:Hidx; [|discriminate].
    destruct indexes as [ | | | |s|l|d']; try discriminate.
    + destruct s; discriminate.
    + destruct l as [|first rest]; [discriminate|]. simpl.
      destruct first as [ | | | | | |first]; try discriminate. simpl.
      destruct (dict_get "indexArn" first) as [a|] eqn:Harn; [|discriminate].
      destruct (truthy a) eqn:Ha; [|discriminate]. simpl.
      intros [= <- <-]. split; [exact Ha|]. exists w1, d, first, rest.
      repeat split; assumption.
  - intros w1 w2 d -> -> Hd. simpl. rewrite Hd. reflexivity.
Qed.

End VectorStoreProofs.

(** X16 at an instance. *)
Lemma create_vector_bucket_arn_witness :
  truthy (PStr "arn:aws:s3vectors:::bucket/store") = true /\
  exists w1 d info,
    example_create_vector_bucket "store" 0%nat = (w1, Returned tt) /\
    example_get_vector_bucket "store" w1 = (2%nat, Returned (PDict d)) /\
    dict_get "vectorBucket" d = Some (PDict info) /\
    dict_get "vectorBucketArn" info
      = Some (PStr "arn:aws:s3vectors:::bucket/store").
Proof.
  apply (proj1 (create_vector_bucket_arn nat example_create_vector_bucket
                  example_get_vector_bucket "store" 0%nat)).
  reflexivity.
Defined.

(** X17 at an instance: the index just created is listed second, the ARN
    of the older one is returned. *)
Lemma create_and_get_index_arn_first_witness :
  create_and_get_index_arn nat example_create_index example_list_indexes
    "store" "new" 1024 0%nat = (2%nat, Returned (PStr "arn:older")) /\
  exists w1 d first rest,
    example_create_index "store" "new" 1024 0%nat = (w1, Returned tt) /\
    example_list_indexes "store" w1 = (2%nat, Returned (PDict d)) /\
    dict_get "indexes" d = Some (PList (PDict first :: rest)) /\
    dict_get "indexArn" first = Some (PStr "arn:older").
Proof.
  split; [reflexivity|].
  apply (proj1 (create_and_get_index_arn_first nat example_create_index
                  example_list_indexes "store" "new" 1024 0%nat)).
  reflexivity.
Defined.

(** ** Creation of the knowledge base *)

Section KnowledgeBaseProofs.

Variable World : Type.
Variable region_name account_id : string.
Variable bedrock_create_knowledge_base :
  knowledge_base_request -> World -> World * result pyval.
Variable bedrock_get_knowledge_base : pyval -> World -> World * result pyval.
Variable sleep : Z -> World -> World.

Local Abbreviation poll :=
  (poll_knowledge_base World bedrock_get_knowledge_base sleep).
Local Abbreviation at_poll :=
  (world_at_poll World bedrock_get_knowledge_base sleep).

Lemma poll_until_settled k :
  forall id w w' response status fuel,
    (forall j, (j < k)%nat ->
       exists w1 r st,
         bedrock_get_knowledge_base id (at_poll j id w) = (w1, Ok r) /\
         knowledge_base_field "status" r = Ok st /\
         is_creating st = true) ->
    bedrock_get_knowledge_base id (at_poll k id w) = (w', Ok response) ->
    knowledge_base_field "status" response = Ok status ->
    is_creating status = false ->
    (k < fuel)%nat ->
    poll fuel id w = (w', Some (Ok status)).
Proof.
  induction k as [|k IH]; intros id w w' response status fuel Hbefore Hget
    Hstatus Hdone Hfuel; destruct fuel as [|fuel]; try lia.
  - simpl in Hget |- *. rewrite Hget, Hstatus, Hdone. reflexivity.
  - destruct (Hbefore 0%nat) as (w1 & r & st & Hget0 & Hst0 & Hcreating);
      [lia|].
    simpl in Hget0. cbn [poll_knowledge_base].
    rewrite Hget0, Hst0, Hcreating.
    apply (IH id (sleep 30 w1) w' response status fuel); try assumption; [| |lia].
    + intros j Hj. destruct (Hbefore (S j)) as (w2 & r2 & st2 & H2); [lia|].
      simpl in H2. rewrite Hget0 in H2. exists w2, r2, st2. exact H2.
    + simpl in Hget. rewrite Hget0 in Hget. exact Hget.
Qed.

(** X18: once the service has created the knowledge base and, after [k]
    polls that report ["CREATING"], reports any other status, the function
    returns the identifier of the knowledge base whatever that status is
    (a failed creation is not turned into an error); it has then paused
    60 seconds once and 30 seconds after each of the [k] polls. *)
Theorem create_knowledge_base_returns_id
    k fuel kb_name roleArn store index w w0 create_response id w' response
    status :
  bedrock_create_knowledge_base
    (knowledge_base_request_for region_name account_id kb_name roleArn
       store index) (sleep 60 w) = (w0, Ok create_response) ->
  knowledge_base_field "knowledgeBaseId" create_response = Ok id ->
  (forall j, (j < k)%nat ->
     exists w1 r st,
       bedrock_get_knowledge_base id (world_at_poll World bedrock_get_knowledge_base sleep j id w0) = (w1, Ok r) /\
       knowledge_base_field "status" r = Ok st /\
       is_creating st = true) ->
  bedrock_get_knowledge_base id (world_at_poll World bedrock_get_knowledge_base sleep k id w0) = (w', Ok response) ->
  knowledge_base_field "status" response = Ok status ->
  is_creating status = false ->
  (k < fuel)%nat ->
  create_knowledge_base World region_name account_id
    bedrock_create_knowledge_base bedrock_get_knowledge_base sleep
    fuel kb_name roleArn store index w
  = (w', Some (Ok id)).
Proof.
  intros Hcreate Hid Hbefore Hget Hstatus Hdone Hfuel.
  unfold create_knowledge_base. cbv zeta. rewrite Hcreate, Hid.
  rewrite (poll_until_settled k id w0 w' response status fuel
             Hbefore Hget Hstatus Hdone Hfuel).
  reflexivity.
Qed.

End KnowledgeBaseProofs.

(** X18 at an instance: two polls report ["CREATING"], the third
    ["FAILED"] at second 120; the identifier is returned all the same. *)
Lemma create_knowledge_base_returns_id_witness :
  create_knowledge_base nat "us-east-1" "123456789012"
    example_bedrock_create example_bedrock_get example_clock_sleep
    5 "kb" "role" "store" "index" 0%nat
  = (120%nat, Some (Ok (PStr "KB1"))).
Proof.
  apply (create_knowledge_base_returns_id nat "us-east-1" "123456789012"
           example_bedrock_create example_bedrock_get example_clock_sleep
           2 5 "kb" "role" "store" "index" 0%nat 60%nat
           (PDict [("knowledgeBase",
                    PDict [("knowledgeBaseId", PStr "KB1");
                           ("status", PStr "CREATING")])])
           (PStr "KB1") 120%nat
           (PDict [("knowledgeBase", PDict [("status", PStr "FAILED")])])
           (PStr "FAILED")).
  - reflexivity.
  - reflexivity.
  - intros j Hj. destruct j as [|[|j]]; [| |lia].
    + eexists _, _, _. repeat split; reflexivity.
    + eexists _, _, _. repeat split; reflexivity.
  - reflexivity.
  - reflexivity.
  - reflexivity.
  - lia.
Defined.

(** ** A plain trace, end to end *)

Section PlainTraceProofs.

Variable lower : string -> string.
Variable repr : pyval -> string.
Variable fetch : pyval -> result (list observation).

(** X19: a trace whose input is a string, with metadata of a readable
    shape, always yields exactly one sample and one mapping entry, with
    index [0], whatever its observations and the fetcher: extraction
    returns the input verbatim as the only user input, and the reference
    of the sample is the catalog answer for that input. *)
Theorem process_traces_plain_trace test_cases t s :
  trace_input t = Some (PStr s) ->
  metadata_readable t = true ->
  exists c sample,
    extract_span_components lower repr fetch t = Ok c /\
    user_inputs c = [s] /\
    process_traces lower repr fetch test_cases [t]
    = Ok ([sample],
          [ {| m_trace_id := trace_id t;
               m_type := "multi_turn";
               m_index := 0 |} ]) /\
    reference sample = match_trace_to_test_case lower s test_cases.
Proof.
  intros Hin Hmeta.
  assert (Hui : extract_user_inputs repr t = Ok [s]).
  { unfold extract_user_inputs. rewrite Hin. reflexivity. }
  destruct (proj2 (extract_available_tools_returns t) Hmeta) as [tools Htools].
  pose proof (extract_span_components_eq lower repr fetch t [s] tools Hui Htools)
    as Hc.
  eexists _, _. split; [exact Hc|]. split; [reflexivity|].
  unfold process_traces. cbn [process_traces_from].
  rewrite (process_trace_eq lower repr fetch _ _ _ _ _ Hc). simpl.
  split; reflexivity.
Qed.

End PlainTraceProofs.

(** X19 at an instance. *)
Lemma process_traces_plain_trace_witness :
  exists c sample,
    extract_span_components ascii_lower example_repr fetch_all
      three_observations_trace = Ok c /\
    user_inputs c = ["What is the revenue?"] /\
    process_traces ascii_lower example_repr fetch_all
      [ {| query := "revenue"; expected_answer := "42" |} ]
      [three_observations_trace]
    = Ok ([sample],
          [ {| m_trace_id := "trace-1"; m_type := "multi_turn";
               m_index := 0 |} ]) /\
    reference sample
    = match_trace_to_test_case ascii_lower "What is the revenue?"
        [ {| query := "revenue"; expected_answer := "42" |} ].
Proof.
  apply (process_traces_plain_trace ascii_lower example_repr fetch_all
           [ {| query := "revenue"; expected_answer := "42" |} ]
           three_observations_trace "What is the revenue?");
    reflexivity.
Defined.
